(** * socket_plc: the PLC client of [plc_connect.py]

    A shallow embedding of class [data_transfer]: the request frames that
    [read] and [write] build, the exchange with the socket (send, receive,
    the retry loop), the decoding of the response, and [close].

    Conventions of the model.
    - Python [str] values are [string]s of ASCII characters: the frames of
      the protocol are ASCII text.  Characters above 127 are kept as they
      are by [upper] and are neither digits nor blanks for [int16].
    - Python [int] values are [Z].
    - The socket is the only mutable object.  Its state and what the network
      will answer are carried by a [world] that every method threads.
    - Console output ([print]) changes neither a return value nor the
      socket and is left out. *)

From Stdlib Require Import ZArith Lia List Bool Ascii String.
Import ListNotations.

Open Scope string_scope.
Open Scope Z_scope.

(** ** Python text operations used by the client *)

Module PyStr.

(** [len(s)] *)
Definition len (s : string) : Z := Z.of_nat (String.length s).

Fixpoint take (n : nat) (s : string) : string :=
  match n, s with
  | S n', String c r => String c (take n' r)
  | _, _ => EmptyString
  end.

Fixpoint drop (n : nat) (s : string) : string :=
  match n, s with
  | S n', String _ r => drop n' r
  | _, _ => s
  end.

(** [s[lo:hi]] for indices that are not negative (the client only uses
    18, 22 and [4*i+22] with [i] taken from a [range]): the characters
    from [lo] up to [hi], cut at the end of [s]. *)
Definition slice (lo hi : Z) (s : string) : string :=
  take (Z.to_nat (hi - lo)) (drop (Z.to_nat lo) s).

Definition upper_char (c : ascii) : ascii :=
  let n := N_of_ascii c in
  if ((97 <=? n) && (n <=? 122))%N then ascii_of_N (n - 32) else c.

(** [s.upper()] on ASCII text, where it changes the letters a to z only
    and keeps the length.  Python's [upper] also maps letters outside
    ASCII and may lengthen such a text; properties that need the length
    of an upper-cased device are stated for ASCII devices ([is_ascii]). *)
Fixpoint upper (s : string) : string :=
  match s with
  | EmptyString => EmptyString
  | String c r => String (upper_char c) (upper r)
  end.

Fixpoint zeros (n : nat) : string :=
  match n with
  | O => EmptyString
  | S n' => String "0" (zeros n')
  end.

(** [s.zfill(width)]: zeros go after a leading sign; a text that is
    already long enough is returned as it is. *)
Definition zfill (width : nat) (s : string) : string :=
  let n := String.length s in
  if (width <=? n)%nat then s
  else
    match s with
    | String c r =>
        if ((c =? "+") || (c =? "-"))%char
        then String c (zeros (width - n) ++ r)
        else zeros (width - n) ++ s
    | EmptyString => zeros (width - n)
    end.

(** The digit of value [d] in lower case, as [str] and [format(_, 'x')]
    print it. *)
Definition digit_char (d : Z) : ascii :=
  match d with
  | 0 => "0" | 1 => "1" | 2 => "2" | 3 => "3" | 4 => "4"
  | 5 => "5" | 6 => "6" | 7 => "7" | 8 => "8" | 9 => "9"
  | 10 => "a" | 11 => "b" | 12 => "c" | 13 => "d" | 14 => "e"
  | _ => "f"
  end%char.

(** Positional notation of [n >= 0] in [base], most significant digit
    first.  One unit of [fuel] is spent per digit. *)
Fixpoint digits (fuel : nat) (base n : Z) : string :=
  match fuel with
  | O => EmptyString
  | S fuel' =>
      if n <? base then String (digit_char n) EmptyString
      else digits fuel' base (n / base) ++ String (digit_char (n mod base)) EmptyString
  end.

(** A number below [2^k] has at most [k] digits in any base from 2 on
    (and 0 has one digit). *)
Definition render (base n : Z) : string :=
  digits (S (Z.to_nat (Z.log2 n))) base n.

Definition signed (base n : Z) : string :=
  if n <? 0 then String "-" (render base (- n)) else render base n.

(** [str(n)] for an [int] *)
Definition str (n : Z) : string := signed 10 n.

(** [format(n, 'x')] for an [int] *)
Definition format_x (n : Z) : string := signed 16 n.

End PyStr.

Import PyStr.

(** ** Request frames (the first four lines of [read] and of [write]) *)

(** The variable [number] of lines 119 and 172. *)
Definition number (length : Z) : string := zfill 4 (str length).

(** Lines 119-122. *)
Definition read_cmd (device : string) (length : Z) : string :=
  let number := number length in
  let cmd := "001004010000" ++ device ++ number in
  let cmd_length := zfill 4 (format_x (len cmd)) in
  upper ("500000FF03FF00" ++ cmd_length ++ cmd).

(** Lines 172-176. *)
Definition write_cmd (device : string) (data : Z) (length : Z) : string :=
  let number := number length in
  let data := zfill 4 (format_x data) in
  let cmd := "001014010000" ++ device ++ number ++ data in
  let cmd_length := zfill 4 (format_x (len cmd)) in
  upper ("500000FF03FF00" ++ cmd_length ++ cmd).

(** ** [int(s, 16)] *)

Module PyInt.

(** The blanks that [int] skips at both ends of an ASCII text. *)
Definition is_space (c : ascii) : bool :=
  let n := N_of_ascii c in
  (((9 <=? n) && (n <=? 13)) || (n =? 32))%N.

Fixpoint lstrip (s : string) : string :=
  match s with
  | String c r => if is_space c then lstrip r else s
  | EmptyString => EmptyString
  end.

Fixpoint rstrip (s : string) : string :=
  match s with
  | EmptyString => EmptyString
  | String c r =>
      match rstrip r with
      | EmptyString => if is_space c then EmptyString else String c EmptyString
      | r' => String c r'
      end
  end.

Definition hex_val (c : ascii) : option Z :=
  let n := Z.of_N (N_of_ascii c) in
  if (48 <=? n) && (n <=? 57) then Some (n - 48)
  else if (97 <=? n) && (n <=? 102) then Some (n - 87)
  else if (65 <=? n) && (n <=? 70) then Some (n - 55)
  else None.

(** Digits with single underscores between them; [us] tells that the
    character just read was an underscore. *)
Fixpoint hex_digits (us : bool) (acc : Z) (s : string) : option Z :=
  match s with
  | EmptyString => if us then None else Some acc
  | String c r =>
      if (c =? "_")%char then (if us then None else hex_digits true acc r)
      else
        match hex_val c with
        | Some d => hex_digits false (16 * acc + d) r
        | None => None
        end
  end.

Definition hex_number (s : string) : option Z :=
  match s with
  | EmptyString => None
  | String c _ => if (c =? "_")%char then None else hex_digits false 0 s
  end.

(** After the sign: an optional [0x] or [0X], which one underscore may
    follow. *)
Definition unprefix (s : string) : string :=
  match s with
  | String "0" (String x r) =>
      if ((x =? "x") || (x =? "X"))%char then
        match r with
        | String "_" r' => r'
        | _ => r
        end
      else s
  | _ => s
  end.

(** [int(s, 16)]: [None] stands for [ValueError]. *)
Definition int16 (s : string) : option Z :=
  match rstrip (lstrip s) with
  | String "+" r => hex_number (unprefix r)
  | String "-" r => option_map Z.opp (hex_number (unprefix r))
  | t => hex_number (unprefix t)
  end.

End PyInt.

Import PyInt.

(** ** Values, exceptions and the socket *)

Inductive exn : Type :=
| Exception_          (* [raise Exception] *)
| OSError             (* [socket.error], [socket.timeout] *)
| UnicodeDecodeError
| ValueError
| TypeError.

(** The values that the methods hand to their caller. *)
#[warnings="-register-all"]
Inductive value : Type :=
| VInt (n : Z)
| VStr (s : string)
| VNone
| VExc (e : exn)
| VList (l : list value).

(** What one [sock.recv(1024)] followed by [decode('utf-8')] gives. *)
Inductive answer : Type :=
| Text (s : string)
| Fails (e : exn).

(** The socket object and its surroundings.
    - [closed]: [close] was already called on the socket;
    - [close_fault]: what the release of the descriptor raises, if anything;
    - [send_script]: what the coming calls of [sock.send] raise ([None]: the
      bytes leave); when it is used up, sends go through;
    - [recv_script]: what the coming receives give; when it is used up,
      nothing arrives and the receive times out;
    - [sent]: the texts that left, oldest first;
    - [naps]: how many times [time.sleep(0.01)] ran. *)
Record world : Type := mkWorld {
  closed : bool;
  close_fault : option exn;
  send_script : list (option exn);
  recv_script : list answer;
  sent : list string;
  naps : nat
}.

Definition set_closed (w : world) : world :=
  mkWorld true (close_fault w) (send_script w) (recv_script w) (sent w) (naps w).

Definition set_send_script (l : list (option exn)) (w : world) : world :=
  mkWorld (closed w) (close_fault w) l (recv_script w) (sent w) (naps w).

Definition set_recv_script (l : list answer) (w : world) : world :=
  mkWorld (closed w) (close_fault w) (send_script w) l (sent w) (naps w).

Definition log_sent (b : string) (w : world) : world :=
  mkWorld (closed w) (close_fault w) (send_script w) (recv_script w)
          (sent w ++ [b])%list (naps w).

Definition add_nap (w : world) : world :=
  mkWorld (closed w) (close_fault w) (send_script w) (recv_script w)
          (sent w) (S (naps w)).

(** ** Computations: a state and exception monad

    [Diverge] is the answer of a loop that was not given enough fuel. *)

Inductive outcome (A : Type) : Type :=
| Ret (a : A)
| Raise (e : exn)
| Diverge.

Arguments Ret {A} a.
Arguments Raise {A} e.
Arguments Diverge {A}.

Definition M (A : Type) : Type := world -> outcome A * world.

Definition ret {A} (a : A) : M A := fun w => (Ret a, w).

Definition raise {A} (e : exn) : M A := fun w => (Raise e, w).

Definition diverge {A} : M A := fun w => (Diverge, w).

Definition bind {A B} (c : M A) (k : A -> M B) : M B :=
  fun w =>
    match c w with
    | (Ret a, w') => k a w'
    | (Raise e, w') => (Raise e, w')
    | (Diverge, w') => (Diverge, w')
    end.

Notation "x <- c ;; k" := (bind c (fun x => k))
  (at level 61, c at next level, right associativity).

(** [try: body / except Exception as e: handler e] *)
Definition try_except {A} (body : M A) (handler : exn -> M A) : M A :=
  fun w =>
    match body w with
    | (Raise e, w') => handler e w'
    | r => r
    end.

(** ** The socket library *)

(** [socket.error] is [OSError]. *)
Definition is_socket_error (e : exn) : bool :=
  match e with
  | OSError => true
  | _ => false
  end.

(** [sock.close()]: the first call marks the socket closed and releases
    the descriptor, which may fail; a later call finds nothing to release
    and returns. *)
Definition sock_close : M unit :=
  fun w =>
    if closed w then (Ret tt, w)
    else
      match close_fault w with
      | Some e => (Raise e, set_closed w)
      | None => (Ret tt, set_closed w)
      end.

(** [sock.send(b)]: a closed socket has no descriptor. *)
Definition sock_send (b : string) : M unit :=
  fun w =>
    if closed w then (Raise OSError, w)
    else
      match send_script w with
      | Some e :: rest => (Raise e, set_send_script rest w)
      | None :: rest => (Ret tt, log_sent b (set_send_script rest w))
      | [] => (Ret tt, log_sent b w)
      end.

(** [sock.recv(1024).decode('utf-8')] *)
Definition sock_recv_text : M string :=
  fun w =>
    if closed w then (Raise OSError, w)
    else
      match recv_script w with
      | Text s :: rest => (Ret s, set_recv_script rest w)
      | Fails e :: rest => (Raise e, set_recv_script rest w)
      | [] => (Raise OSError, w)
      end.

(** [cmd.encode('utf-8')] of an ASCII text keeps its characters. *)
Definition encode_utf8 (s : string) : string := s.

(** [time.sleep(0.01)] *)
Definition sleep : M unit := fun w => (Ret tt, add_nap w).

(** ** The methods of [data_transfer] *)

(** [close] (lines 49-56).  Only [socket.error] sets [return_cd] to 1; the
    [return] of the [finally] block ends the call whatever happened. *)
Definition close : M Z :=
  fun w =>
    let return_cd := 0 in
    match sock_close w with
    | (Ret _, w') => (Ret return_cd, w')
    | (Raise e, w') =>
        if is_socket_error e then
          let return_cd := 1 in (Ret return_cd, w')
        else (Ret return_cd, w')
    | (Diverge, w') => (Diverge, w')
    end.

(** [send] (lines 73-79): a bare [except] catches everything. *)
Definition send (cmd : string) : M Z :=
  fun w =>
    let return_cd := 0 in
    match sock_send (encode_utf8 cmd) w with
    | (Ret _, w') => (Ret return_cd, w')
    | (Raise _, w') => let return_cd := 1 in (Ret return_cd, w')
    | (Diverge, w') => (Diverge, w')
    end.

(** [recv] (lines 93-100): [data] stays [[]] when the receive or the
    decoding raises. *)
Definition recv : M (Z * value) :=
  fun w =>
    let return_cd := 0 in
    let data := VList [] in
    match sock_recv_text w with
    | (Ret s, w') => let data := VStr s in (Ret (return_cd, data), w')
    | (Raise _, w') => let return_cd := 1 in (Ret (return_cd, data), w')
    | (Diverge, w') => (Diverge, w')
    end.

(** [v[lo:hi]] on what [recv] returned. *)
Definition slice_value (lo hi : Z) (v : value) : M value :=
  match v with
  | VStr s => ret (VStr (slice lo hi s))
  | VList l => ret (VList (firstn (Z.to_nat (hi - lo)) (skipn (Z.to_nat lo) l)))
  | _ => raise TypeError
  end.

(** [v != s] for a text [s]: values of another type differ from it. *)
Definition differs (v : value) (s : string) : bool :=
  match v with
  | VStr t => negb (t =? s)%string
  | _ => true
  end.

(** [int(v, 16)] *)
Definition int_16 (v : value) : M Z :=
  match v with
  | VStr s =>
      match int16 s with
      | Some n => ret n
      | None => raise ValueError
      end
  | _ => raise TypeError
  end.

(** The loop of lines 131-137 (and 184-190), on the variables
    [rtn_cd], [recv_data] and [retry_cntr]. *)
Fixpoint retry_loop (fuel : nat) (rtn_cd : Z) (recv_data : value)
         (retry_cntr : Z) : M value :=
  if rtn_cd =? 0 then ret recv_data
  else
    match fuel with
    | O => diverge
    | S fuel' =>
        _ <- sleep ;;
        let retry_cntr := retry_cntr + 1 in
        r <- recv ;;
        let '(rtn_cd, recv_data) := r in
        if retry_cntr >? 0 then raise Exception_
        else retry_loop fuel' rtn_cd recv_data retry_cntr
    end.

(** Lines 126-137 and 179-190: send the frame, receive the response. *)
Definition exchange (fuel : nat) (cmd : string) : M value :=
  rc <- send cmd ;;
  if negb (rc =? 0) then raise Exception_
  else
    r <- recv ;;
    let '(rtn_cd, recv_data) := r in
    let retry_cntr := 0 in
    retry_loop fuel rtn_cd recv_data retry_cntr.

(** [range(n)] *)
Definition range (n : Z) : list Z := map Z.of_nat (seq 0 (Z.to_nat n)).

(** One turn of the loop of lines 141-146. *)
Definition decode_slot (recv_data : value) (i : Z) (data : list value)
  : M (list value) :=
  let pos := 4 * i + 22 in
  chunk <- slice_value pos (pos + 4) recv_data ;;
  if differs chunk "" then
    n <- int_16 chunk ;;
    ret (data ++ [VInt n])%list
  else ret (data ++ [VStr ""])%list.

Fixpoint decode_loop (recv_data : value) (indices : list Z) (data : list value)
  : M (list value) :=
  match indices with
  | [] => ret data
  | i :: rest =>
      data' <- decode_slot recv_data i data ;;
      decode_loop recv_data rest data'
  end.

(** [read] (lines 119-150). *)
Definition read (fuel : nat) (device : string) (length : Z) : M value :=
  let cmd := read_cmd device length in
  try_except
    (let data := [] in
     recv_data <- exchange fuel cmd ;;
     status <- slice_value 18 22 recv_data ;;
     if differs status "0000" then ret (VList [VList [VNone]])
     else
       data <- decode_loop recv_data (range length) data ;;
       ret (VList data))
    (fun e => ret (VList [VList [VExc e]])).

(** [write] (lines 172-197). *)
Definition write (fuel : nat) (device : string) (data : Z) (length : Z)
  : M value :=
  let cmd := write_cmd device data length in
  try_except
    (recv_data <- exchange fuel cmd ;;
     status <- slice_value 18 22 recv_data ;;
     if differs status "0000" then ret (VInt 1)
     else ret (VInt 0))
    (fun e => ret (VExc e)).

(** A socket that is open and sound, with [answers] on their way. *)
Definition plc (answers : list answer) : world :=
  mkWorld false None [] answers [] 0.

(** ** The frame of the specification

    The words of the frame description, to be compared with [read_cmd] and
    [write_cmd]: fields of a fixed width, written digit by digit. *)

(** Left padding with zeros up to [width] characters. *)
Definition lpad0 (width : nat) (s : string) : string :=
  zeros (width - String.length s) ++ s.

(** Four decimal digits. *)
Definition dec4 (n : Z) : string :=
  String (digit_char (n / 1000 mod 10))
    (String (digit_char (n / 100 mod 10))
       (String (digit_char (n / 10 mod 10))
          (String (digit_char (n mod 10)) EmptyString))).

(** Four hexadecimal digits, in lower case. *)
Definition hex4 (n : Z) : string :=
  String (digit_char (n / 4096 mod 16))
    (String (digit_char (n / 256 mod 16))
       (String (digit_char (n / 16 mod 16))
          (String (digit_char (n mod 16)) EmptyString))).

(** The write frame as the specification words it. *)
Definition spec_write_frame (D : string) (L v : Z) : string :=
  let number := lpad0 4 (render 10 L) in
  let valueHex := hex4 v in
  let body := "001014010000" ++ D ++ number ++ valueHex in
  let bodyLen := lpad0 4 (render 16 (len body)) in
  upper ("500000FF03FF00" ++ bodyLen ++ body).

(** ** Views of a run, used to state the properties *)

(** Computations that send nothing. *)
Definition quiet {A} (c : M A) : Prop :=
  forall w, sent (snd (c w)) = sent w.

(** The text of payload slot [i]: [recv_data[pos:pos+4]] for
    [pos = 4*i+22]. *)
Definition slot (d : string) (i : Z) : string :=
  slice (4 * i + 22) (4 * i + 22 + 4) d.

(** What lines 143-146 append for a slot of text [c]; [None] when [int]
    raises. *)
Definition word (c : string) : option value :=
  if (c =? "")%string then Some (VStr "") else option_map VInt (int16 c).

Fixpoint words (d : string) (indices : list Z) : option (list value) :=
  match indices with
  | [] => Some []
  | i :: rest =>
      match word (slot d i) with
      | Some v => option_map (cons v) (words d rest)
      | None => None
      end
  end.

(** An element of a successful result: a number or the empty text. *)
Definition is_word (v : value) : bool :=
  match v with
  | VInt _ => true
  | VStr s => (s =? "")%string
  | _ => false
  end.

(** The outcome classes of [read], told from the returned value alone. *)
Inductive read_class : Type :=
| Success
| DeviceError
| TransportFailure.

Definition classify (v : value) : option read_class :=
  match v with
  | VList [VList [VNone]] => Some DeviceError
  | VList [VList [VExc Exception_]] => Some TransportFailure
  | VList data => if forallb is_word data then Some Success else None
  | _ => None
  end.

(** The value field of a write frame: the variable [data] of line 173 as
    it stands in the frame, after [upper]. *)
Definition value_field (v : Z) : string := upper (zfill 4 (format_x v)).

(** The payload that carries the words [vs], one value field each. *)
Fixpoint payload (vs : list Z) : string :=
  match vs with
  | [] => EmptyString
  | v :: rest => value_field v ++ payload rest
  end.

(** Texts of ASCII characters (codes below 128): the texts on which
    [upper] is Python's [upper]. *)
Fixpoint is_ascii (s : string) : bool :=
  match s with
  | EmptyString => true
  | String c r => (N_of_ascii c <? 128)%N && is_ascii r
  end.

(** Texts made of hexadecimal digits only. *)
Fixpoint all_hex (s : string) : bool :=
  match s with
  | EmptyString => true
  | String c r =>
      match hex_val c with
      | Some _ => all_hex r
      | None => false
      end
  end.

(** * Properties *)

(** ** Text *)

Section Text.

Lemma upper_app (a b : string) : upper (a ++ b) = upper a ++ upper b.
Proof.
  induction a as [|c a IH]; simpl; [reflexivity | now rewrite IH].
Qed.

Lemma length_app (a b : string) :
  String.length (a ++ b) = (String.length a + String.length b)%nat.
Proof.
  induction a as [|c a IH]; simpl; [reflexivity | now rewrite IH].
Qed.

Lemma len_app (a b : string) : len (a ++ b) = len a + len b.
Proof. unfold len. rewrite length_app. lia. Qed.

Lemma app_assoc (a b c : string) : (a ++ b) ++ c = a ++ b ++ c.
Proof.
  induction a as [|x a IH]; simpl; [reflexivity | now rewrite IH].
Qed.

Lemma length_upper (a : string) : String.length (upper a) = String.length a.
Proof.
  induction a as [|c a IH]; simpl; [reflexivity | now rewrite IH].
Qed.

Lemma drop_app (a b : string) : drop (String.length a) (a ++ b) = b.
Proof. induction a as [|c a IH]; simpl; [now destruct b | exact IH]. Qed.

Lemma take_app (a b : string) : take (String.length a) (a ++ b) = a.
Proof.
  induction a as [|c a IH]; simpl; [now destruct b | now rewrite IH].
Qed.

Lemma drop_all (n : nat) (a : string) :
  (String.length a <= n)%nat -> drop n a = EmptyString.
Proof.
  revert a; induction n as [|n IH]; intros [|c a]; simpl; intros H;
    try reflexivity; try lia.
  apply IH; lia.
Qed.

Lemma take_empty (n : nat) : take n EmptyString = EmptyString.
Proof. now destruct n. Qed.

End Text.

(** ** Digits *)

Section Digits.

(** A digit is never a sign, so [zfill] pads in front of it. *)
Lemma digit_char_not_sign (d : Z) :
  ((digit_char d =? "+") || (digit_char d =? "-"))%char = false.
Proof.
  destruct d as [|p|p]; try reflexivity.
  do 4 (try destruct p as [p|p|]); reflexivity.
Qed.

(** Digits below ten are not letters: [upper] keeps them. *)
Lemma upper_digit_dec (d : Z) :
  0 <= d < 10 -> upper_char (digit_char d) = digit_char d.
Proof.
  intros H.
  assert (d = 0 \/ d = 1 \/ d = 2 \/ d = 3 \/ d = 4 \/
          d = 5 \/ d = 6 \/ d = 7 \/ d = 8 \/ d = 9) as E by lia.
  repeat (destruct E as [E|E]; [subst d; reflexivity|]).
  subst d; reflexivity.
Qed.

(** With fuel left, the notation starts with a digit. *)
Lemma digits_head (f : nat) (base n : Z) :
  exists d r, digits (S f) base n = String (digit_char d) r.
Proof.
  revert n; induction f as [|f IH]; intros n.
  - simpl. destruct (n <? base); eauto.
  - change (digits (S (S f)) base n)
      with (if n <? base then String (digit_char n) EmptyString
            else digits (S f) base (n / base)
                 ++ String (digit_char (n mod base)) EmptyString).
    destruct (n <? base); [eauto|].
    destruct (IH (n / base)) as (d & r & ->). simpl. eauto.
Qed.

(** Two amounts of fuel that both cover the digits of [n] give the same
    text. *)
Lemma digits_fuel (base : Z) (Hb : 2 <= base) :
  forall f1 f2 n, 0 <= n ->
    n < base ^ Z.of_nat (S f1) -> n < base ^ Z.of_nat (S f2) ->
    digits (S f1) base n = digits (S f2) base n.
Proof.
  induction f1 as [|f1 IH]; intros f2 n Hn H1 H2.
  - change (base ^ Z.of_nat 1) with (base ^ 1) in H1.
    rewrite Z.pow_1_r in H1.
    simpl. destruct (Z.ltb_spec n base); [reflexivity | lia].
  - change (digits (S (S f1)) base n)
      with (if n <? base then String (digit_char n) EmptyString
            else digits (S f1) base (n / base)
                 ++ String (digit_char (n mod base)) EmptyString).
    change (digits (S f2) base n)
      with (if n <? base then String (digit_char n) EmptyString
            else digits f2 base (n / base)
                 ++ String (digit_char (n mod base)) EmptyString).
    destruct (Z.ltb_spec n base) as [Hlt|Hge]; [reflexivity|].
    destruct f2 as [|f2].
    + change (base ^ Z.of_nat 1) with (base ^ 1) in H2.
      rewrite Z.pow_1_r in H2. lia.
    + f_equal. apply IH.
      * apply Z.div_pos; lia.
      * apply Z.div_lt_upper_bound; [lia|].
        rewrite Nat2Z.inj_succ, Z.pow_succ_r in H1 by lia. exact H1.
      * apply Z.div_lt_upper_bound; [lia|].
        rewrite Nat2Z.inj_succ, Z.pow_succ_r in H2 by lia. exact H2.
Qed.

(** The fuel that [render] takes covers the digits. *)
Lemma render_fuel (base : Z) (Hb : 2 <= base) (f : nat) (n : Z) :
  0 <= n -> n < base ^ Z.of_nat (S f) ->
  render base n = digits (S f) base n.
Proof.
  intros Hn Hf. unfold render. apply digits_fuel; try assumption.
  rewrite Nat2Z.inj_succ, Z2Nat.id by apply Z.log2_nonneg.
  destruct (Z.eq_dec n 0) as [->|Hz].
  - apply Z.pow_pos_nonneg; [lia | simpl; lia].
  - apply Z.lt_le_trans with (2 ^ Z.succ (Z.log2 n)).
    + apply Z.log2_spec; lia.
    + apply Z.pow_le_mono_l. lia.
Qed.

End Digits.

(** ** Fields of four digits *)

Section Fields.

Lemma signed_nonneg (base n : Z) : 0 <= n -> signed base n = render base n.
Proof.
  intros H. unfold signed. destruct (Z.ltb_spec n 0); [lia | reflexivity].
Qed.

(** In front of a number that is not negative, [zfill] is plain left
    padding. *)
Lemma zfill_render (width : nat) (base n : Z) :
  zfill width (render base n) = lpad0 width (render base n).
Proof.
  unfold render.
  destruct (digits_head (Z.to_nat (Z.log2 n)) base n) as (d & r & ->).
  unfold zfill, lpad0. rewrite digit_char_not_sign.
  destruct (Nat.leb_spec width (String.length (String (digit_char d) r)))
    as [Hle|Hgt]; [|reflexivity].
  replace (width - String.length (String (digit_char d) r))%nat with 0%nat
    by lia.
  reflexivity.
Qed.

Ltac split_digits :=
  repeat match goal with
    | |- context [?a <? ?b] => destruct (Z.ltb_spec a b)
    end.

Ltac same_digits :=
  cbn; repeat (apply (f_equal2 String)); try reflexivity;
  try match goal with
    | |- "0"%char = _ => change "0"%char with (digit_char 0)
    end;
  apply (f_equal digit_char);
  Z.to_euclidean_division_equations; lia.

Lemma lpad0_render_hex (v : Z) :
  0 <= v <= 65535 -> lpad0 4 (render 16 v) = hex4 v.
Proof.
  intros H.
  rewrite (render_fuel 16 ltac:(lia) 3) by (change (16 ^ Z.of_nat 4) with 65536; lia).
  unfold hex4, lpad0. cbn [digits].
  split_digits; try (exfalso; Z.to_euclidean_division_equations; lia);
    same_digits.
Qed.

Lemma lpad0_render_dec (L : Z) :
  0 <= L <= 9999 -> lpad0 4 (render 10 L) = dec4 L.
Proof.
  intros H.
  rewrite (render_fuel 10 ltac:(lia) 3) by (change (10 ^ Z.of_nat 4) with 10000; lia).
  unfold dec4, lpad0. cbn [digits].
  split_digits; try (exfalso; Z.to_euclidean_division_equations; lia);
    same_digits.
Qed.

Lemma zfill_format_x (v : Z) :
  0 <= v <= 65535 -> zfill 4 (format_x v) = hex4 v.
Proof.
  intros H. unfold format_x. rewrite signed_nonneg by lia.
  rewrite zfill_render. now apply lpad0_render_hex.
Qed.

Lemma zfill_str (L : Z) :
  0 <= L <= 9999 -> zfill 4 (str L) = dec4 L.
Proof.
  intros H. unfold str. rewrite signed_nonneg by lia.
  rewrite zfill_render. now apply lpad0_render_dec.
Qed.

Lemma upper_dec4 (L : Z) : upper (dec4 L) = dec4 L.
Proof.
  unfold dec4. cbn [upper].
  rewrite !upper_digit_dec; [reflexivity| | | |];
    apply Z.mod_pos_bound; lia.
Qed.

End Fields.

(** ** The exchange *)

Create HintDb quiet.

Section Exchange.

(** [send] always returns, with 0 or 1. *)
Lemma send_returns (cmd : string) (w : world) :
  exists cd w', send cmd w = (Ret cd, w') /\ (cd = 0 \/ cd = 1).
Proof.
  unfold send. destruct (sock_send (encode_utf8 cmd) w) as [[u|e|] w'] eqn:E.
  - eauto.
  - eauto.
  - exfalso. unfold sock_send in E.
    destruct (closed w); [discriminate|].
    destruct (send_script w) as [|[e|] rest]; discriminate.
Qed.

(** [recv] always returns a pair: 0 with a text, or 1 with [[]]. *)
Lemma recv_returns (w : world) :
  exists cd data w',
    recv w = (Ret (cd, data), w')
    /\ ((cd = 0 /\ exists s, data = VStr s) \/ (cd = 1 /\ data = VList [])).
Proof.
  unfold recv. destruct (sock_recv_text w) as [[s|e|] w'] eqn:E.
  - exists 0, (VStr s), w'. split; [reflexivity|]. left. eauto.
  - exists 1, (VList []), w'. split; [reflexivity|]. now right.
  - exfalso. unfold sock_recv_text in E.
    destruct (closed w); [discriminate|].
    destruct (recv_script w) as [|[s|e] rest]; discriminate.
Qed.

(** A frame that left is at the end of the log; one that did not leave
    is not logged. *)
Lemma send_sent (cmd : string) (w w' : world) (cd : Z) :
  send cmd w = (Ret cd, w') ->
  sent w' = (if cd =? 0 then sent w ++ [cmd] else sent w)%list.
Proof.
  unfold send, sock_send, encode_utf8.
  destruct (closed w).
  - intros [= <- <-]. reflexivity.
  - destruct (send_script w) as [|[e|] rest]; intros [= <- <-]; reflexivity.
Qed.

Lemma quiet_ret {A} (a : A) : quiet (ret a).
Proof. intros w; reflexivity. Qed.

Lemma quiet_raise {A} (e : exn) : quiet (@raise A e).
Proof. intros w; reflexivity. Qed.

Lemma quiet_diverge {A} : quiet (@diverge A).
Proof. intros w; reflexivity. Qed.

Lemma quiet_sleep : quiet sleep.
Proof. intros w; reflexivity. Qed.

Lemma quiet_bind {A B} (c : M A) (k : A -> M B) :
  quiet c -> (forall a, quiet (k a)) -> quiet (bind c k).
Proof.
  intros Hc Hk w. unfold bind. specialize (Hc w).
  destruct (c w) as [[a|e|] w']; simpl in *; try assumption.
  now rewrite Hk.
Qed.

Lemma quiet_try_except {A} (c : M A) (h : exn -> M A) :
  quiet c -> (forall e, quiet (h e)) -> quiet (try_except c h).
Proof.
  intros Hc Hh w. unfold try_except. specialize (Hc w).
  destruct (c w) as [[a|e|] w']; simpl in *; try assumption.
  now rewrite Hh.
Qed.

Lemma quiet_recv : quiet recv.
Proof.
  intros w. unfold recv, sock_recv_text.
  destruct (closed w); [reflexivity|].
  destruct (recv_script w) as [|[s|e] rest]; reflexivity.
Qed.

Lemma quiet_slice_value (lo hi : Z) (v : value) : quiet (slice_value lo hi v).
Proof. destruct v; intros w; reflexivity. Qed.

Lemma quiet_int_16 (v : value) : quiet (int_16 v).
Proof.
  destruct v as [n|s| | |l]; try (intros w; reflexivity).
  simpl. destruct (int16 s); intros w; reflexivity.
Qed.

#[local] Hint Resolve quiet_ret quiet_raise quiet_diverge quiet_sleep quiet_recv
  quiet_slice_value quiet_int_16 : quiet.

Lemma quiet_retry_loop (fuel : nat) :
  forall rtn_cd recv_data retry_cntr,
    quiet (retry_loop fuel rtn_cd recv_data retry_cntr).
Proof.
  induction fuel as [|fuel IH]; intros rtn_cd recv_data retry_cntr; simpl;
    destruct (rtn_cd =? 0); auto with quiet.
  apply quiet_bind; [auto with quiet|]. intros _.
  apply quiet_bind; [auto with quiet|]. intros [cd d].
  destruct (retry_cntr + 1 >? 0); auto with quiet.
Qed.

Lemma quiet_decode_slot (recv_data : value) (i : Z) (data : list value) :
  quiet (decode_slot recv_data i data).
Proof.
  unfold decode_slot. apply quiet_bind; [auto with quiet|]. intros chunk.
  destruct (differs chunk ""); [|auto with quiet].
  apply quiet_bind; auto with quiet.
Qed.

Lemma quiet_decode_loop (recv_data : value) (indices : list Z) :
  forall data, quiet (decode_loop recv_data indices data).
Proof.
  induction indices as [|i rest IH]; intros data; simpl; [auto with quiet|].
  apply quiet_bind; [apply quiet_decode_slot | exact IH].
Qed.

(** After the frame left, [read] and [write] send nothing more. *)
Lemma read_sent (fuel : nat) (device : string) (length : Z) (w : world) :
  sent (snd (read fuel device length w))
  = sent (snd (send (read_cmd device length) w)).
Proof.
  unfold read, exchange.
  set (cmd := read_cmd device length).
  match goal with
  | |- sent (snd (try_except (bind (bind (send cmd) ?k1) ?k2) ?h w)) = _ =>
      assert (forall rc, quiet (try_except (bind (k1 rc) k2) h)) as Q
  end.
  { intros rc. apply quiet_try_except; [|auto with quiet].
    apply quiet_bind.
    - destruct (negb (rc =? 0)); [auto with quiet|].
      apply quiet_bind; [auto with quiet|]. intros [cd d].
      apply quiet_retry_loop.
    - intros d. apply quiet_bind; [auto with quiet|]. intros st.
      destruct (differs st "0000"); [auto with quiet|].
      apply quiet_bind; [apply quiet_decode_loop | auto with quiet]. }
  destruct (send_returns cmd w) as (cd & w' & Hs & _).
  specialize (Q cd w'). rewrite Hs. simpl snd at 2. rewrite <- Q.
  unfold try_except, bind. rewrite Hs. reflexivity.
Qed.

Lemma write_sent (fuel : nat) (device : string) (data length : Z) (w : world) :
  sent (snd (write fuel device data length w))
  = sent (snd (send (write_cmd device data length) w)).
Proof.
  unfold write, exchange.
  set (cmd := write_cmd device data length).
  match goal with
  | |- sent (snd (try_except (bind (bind (send cmd) ?k1) ?k2) ?h w)) = _ =>
      assert (forall rc, quiet (try_except (bind (k1 rc) k2) h)) as Q
  end.
  { intros rc. apply quiet_try_except; [|auto with quiet].
    apply quiet_bind.
    - destruct (negb (rc =? 0)); [auto with quiet|].
      apply quiet_bind; [auto with quiet|]. intros [cd d].
      apply quiet_retry_loop.
    - intros d. apply quiet_bind; [auto with quiet|]. intros st.
      destruct (differs st "0000"); auto with quiet. }
  destruct (send_returns cmd w) as (cd & w' & Hs & _).
  specialize (Q cd w'). rewrite Hs. simpl snd at 2. rewrite <- Q.
  unfold try_except, bind. rewrite Hs. reflexivity.
Qed.

(** The three ways through lines 126-137. *)
Lemma exchange_send_fails (fuel : nat) (cmd : string) (w w1 : world) (cd : Z) :
  send cmd w = (Ret cd, w1) -> cd <> 0 ->
  exchange fuel cmd w = (Raise Exception_, w1).
Proof.
  intros Hs Hcd. unfold exchange, bind. rewrite Hs.
  destruct (Z.eqb_spec cd 0); [contradiction | reflexivity].
Qed.

Lemma exchange_answer (fuel : nat) (cmd : string) (w w1 w2 : world)
      (recv_data : value) :
  send cmd w = (Ret 0, w1) -> recv w1 = (Ret (0, recv_data), w2) ->
  exchange fuel cmd w = (Ret recv_data, w2).
Proof.
  intros Hs Hr. unfold exchange, bind. rewrite Hs. simpl. rewrite Hr.
  destruct fuel; reflexivity.
Qed.

(** When the first receive fails, the loop sleeps, receives again and
    raises, whatever the second receive brought. *)
Lemma exchange_retry (fuel : nat) (cmd : string) (w w1 w2 : world)
      (cd : Z) (recv_data : value) :
  send cmd w = (Ret 0, w1) -> recv w1 = (Ret (cd, recv_data), w2) ->
  cd <> 0 ->
  exchange (S fuel) cmd w = (Raise Exception_, snd (recv (add_nap w2))).
Proof.
  intros Hs Hr Hcd. unfold exchange, bind. rewrite Hs. simpl. rewrite Hr.
  destruct (Z.eqb_spec cd 0); [contradiction|].
  unfold bind, sleep.
  destruct (recv_returns (add_nap w2)) as (cd' & d' & w3 & -> & _).
  reflexivity.
Qed.

Lemma read_raise (fuel : nat) (device : string) (length : Z) (w w' : world)
      (e : exn) :
  exchange fuel (read_cmd device length) w = (Raise e, w') ->
  read fuel device length w = (Ret (VList [VList [VExc e]]), w').
Proof. intros H. unfold read, try_except, bind. now rewrite H. Qed.

Lemma write_raise (fuel : nat) (device : string) (data length : Z)
      (w w' : world) (e : exn) :
  exchange fuel (write_cmd device data length) w = (Raise e, w') ->
  write fuel device data length w = (Ret (VExc e), w').
Proof. intros H. unfold write, try_except, bind. now rewrite H. Qed.

Lemma differs_iff (s t : string) : differs (VStr s) t = true <-> s <> t.
Proof.
  simpl. destruct (String.eqb_spec s t); simpl; split; congruence.
Qed.

Lemma read_status_bad (fuel : nat) (device : string) (length : Z)
      (w w' : world) (d : string) :
  exchange fuel (read_cmd device length) w = (Ret (VStr d), w') ->
  slice 18 22 d <> "0000" ->
  read fuel device length w = (Ret (VList [VList [VNone]]), w').
Proof.
  intros H Hst. unfold read, try_except, bind. rewrite H.
  simpl.
  destruct (String.eqb_spec (slice 18 22 d) "0000"); [contradiction|].
  reflexivity.
Qed.

Lemma write_status (fuel : nat) (device : string) (data length : Z)
      (w w' : world) (d : string) :
  exchange fuel (write_cmd device data length) w = (Ret (VStr d), w') ->
  write fuel device data length w
  = (Ret (VInt (if (slice 18 22 d =? "0000")%string then 0 else 1)), w').
Proof.
  intros H. unfold write, try_except, bind. rewrite H.
  simpl. destruct (slice 18 22 d =? "0000")%string; reflexivity.
Qed.

Lemma read_status_ok (fuel : nat) (device : string) (length : Z)
      (w w' : world) (d : string) :
  exchange fuel (read_cmd device length) w = (Ret (VStr d), w') ->
  slice 18 22 d = "0000" ->
  read fuel device length w
  = match decode_loop (VStr d) (range length) [] w' with
    | (Ret data, w'') => (Ret (VList data), w'')
    | (Raise e, w'') => (Ret (VList [VList [VExc e]]), w'')
    | (Diverge, w'') => (Diverge, w'')
    end.
Proof.
  intros H Hst. unfold read, try_except, bind. rewrite H.
  simpl. rewrite Hst. simpl.
  destruct (decode_loop (VStr d) (range length) [] w') as [[l|e|] w''];
    reflexivity.
Qed.

End Exchange.

(** ** Decoding of the payload *)

Section Decode.

Lemma decode_slot_word (d : string) (i : Z) (data : list value) (w : world) :
  decode_slot (VStr d) i data w
  = match word (slot d i) with
    | Some v => (Ret (data ++ [v])%list, w)
    | None => (Raise ValueError, w)
    end.
Proof.
  unfold decode_slot, bind, slice_value, ret, word. fold (slot d i).
  cbn [differs]. destruct (String.eqb_spec (slot d i) ""); cbn [negb].
  - reflexivity.
  - cbn [int_16]. destruct (int16 (slot d i)); reflexivity.
Qed.

Lemma decode_loop_words (d : string) (indices : list Z) :
  forall (data : list value) (w : world),
    decode_loop (VStr d) indices data w
    = match words d indices with
      | Some l => (Ret (data ++ l)%list, w)
      | None => (Raise ValueError, w)
      end.
Proof.
  induction indices as [|i rest IH]; intros data w.
  - simpl. unfold ret. now rewrite List.app_nil_r.
  - cbn [decode_loop words]. unfold bind. rewrite decode_slot_word.
    destruct (word (slot d i)) as [v|]; [|reflexivity].
    rewrite IH. destruct (words d rest) as [l|]; [|reflexivity].
    cbn [option_map]. now rewrite <- List.app_assoc.
Qed.

Lemma read_decoded (fuel : nat) (device : string) (length : Z)
      (w w' : world) (d : string) :
  exchange fuel (read_cmd device length) w = (Ret (VStr d), w') ->
  slice 18 22 d = "0000" ->
  read fuel device length w
  = match words d (range length) with
    | Some l => (Ret (VList l), w')
    | None => (Ret (VList [VList [VExc ValueError]]), w')
    end.
Proof.
  intros H Hst. rewrite (read_status_ok _ _ _ _ _ _ H Hst).
  rewrite decode_loop_words. destruct (words d (range length)); reflexivity.
Qed.

Lemma words_length (d : string) (indices : list Z) :
  forall l, words d indices = Some l -> List.length l = List.length indices.
Proof.
  induction indices as [|i rest IH]; intros l; cbn [words].
  - now intros [= <-].
  - destruct (word (slot d i)) as [v|]; [|discriminate].
    destruct (words d rest) as [l'|]; [|discriminate].
    intros [= <-]. simpl. now rewrite (IH l').
Qed.

Lemma words_nth (d : string) (indices : list Z) :
  forall l k i,
    words d indices = Some l -> nth_error indices k = Some i ->
    exists v, word (slot d i) = Some v /\ nth_error l k = Some v.
Proof.
  induction indices as [|j rest IH]; intros l k i; cbn [words].
  - destruct k; discriminate.
  - destruct (word (slot d j)) as [v|] eqn:Ev; [|discriminate].
    destruct (words d rest) as [l'|]; [|discriminate].
    intros [= <-]. destruct k as [|k]; cbn [nth_error].
    + intros [= <-]. eauto.
    + intros Hk. now apply (IH l' k i).
Qed.

Lemma words_defined (d : string) (indices : list Z) :
  (forall i, In i indices -> word (slot d i) <> None) ->
  exists l, words d indices = Some l.
Proof.
  induction indices as [|j rest IH]; intros H; cbn [words]; [eauto|].
  destruct (word (slot d j)) as [v|] eqn:Ev.
  - destruct IH as [l ->]; [intros i Hi; apply H; now right|].
    cbn. eauto.
  - exfalso. apply (H j); [now left | exact Ev].
Qed.

Lemma word_is_word (c : string) (v : value) :
  word c = Some v -> is_word v = true.
Proof.
  unfold word. destruct (c =? "")%string.
  - now intros [= <-].
  - destruct (int16 c); [|discriminate]. now intros [= <-].
Qed.

Lemma words_are_words (d : string) (indices : list Z) :
  forall l, words d indices = Some l -> forallb is_word l = true.
Proof.
  induction indices as [|j rest IH]; intros l; cbn [words].
  - now intros [= <-].
  - destruct (word (slot d j)) as [v|] eqn:Ev; [|discriminate].
    destruct (words d rest) as [l'|]; [|discriminate].
    intros [= <-]. cbn [forallb]. rewrite (word_is_word _ _ Ev).
    now apply IH.
Qed.

Lemma range_length (n : Z) : List.length (range n) = Z.to_nat n.
Proof. unfold range. now rewrite length_map, length_seq. Qed.

Lemma range_nth (n i : Z) :
  0 <= i < n -> nth_error (range n) (Z.to_nat i) = Some i.
Proof.
  intros H. unfold range.
  rewrite nth_error_map, nth_error_seq.
  destruct (Nat.ltb_spec (Z.to_nat i) (Z.to_nat n)) as [_|Hge]; [|lia].
  cbn. f_equal. lia.
Qed.

Lemma range_In (n i : Z) : In i (range n) -> 0 <= i < n.
Proof.
  unfold range. rewrite in_map_iff. intros (k & <- & Hk).
  apply in_seq in Hk. lia.
Qed.

(** Past the end of the response every slot is empty. *)
Lemma drop_empty_mono (n m : nat) (d : string) :
  drop n d = EmptyString -> (n <= m)%nat -> drop m d = EmptyString.
Proof.
  revert m d. induction n as [|n IH]; intros m d H Hm.
  - simpl in H. destruct d; [|discriminate]. now destruct m.
  - destruct d as [|c r]; [now destruct m|].
    destruct m as [|m]; [lia|]. simpl in *. apply IH; [exact H | lia].
Qed.

Lemma slot_take (d : string) (i : Z) :
  slot d i = take 4 (drop (Z.to_nat (4 * i + 22)) d).
Proof.
  unfold slot, slice.
  now replace (4 * i + 22 + 4 - (4 * i + 22)) with 4 by lia.
Qed.

Lemma slot_empty_mono (d : string) (i j : Z) :
  0 <= i <= j -> slot d i = "" -> slot d j = "".
Proof.
  intros H. rewrite !slot_take. intros E.
  assert (drop (Z.to_nat (4 * i + 22)) d = EmptyString) as E'.
  { destruct (drop (Z.to_nat (4 * i + 22)) d); [reflexivity | discriminate]. }
  rewrite (drop_empty_mono _ (Z.to_nat (4 * j + 22)) _ E') by lia.
  reflexivity.
Qed.

(** A result made of numbers and empty texts is classified as a success. *)
Lemma classify_words (l : list value) :
  forallb is_word l = true -> classify (VList l) = Some Success.
Proof.
  intros H. unfold classify.
  destruct l as [|x l']; [reflexivity|].
  destruct x as [n|s| |e|l'']; try discriminate H; now rewrite H.
Qed.

End Decode.

(** ** Slices behind the 18 characters of the header *)

Section Header.

Lemma drop_add (n m : nat) (s : string) : drop (n + m) s = drop m (drop n s).
Proof.
  revert s. induction n as [|n IH]; intros s; [reflexivity|].
  destruct s as [|c r]; simpl; [now destruct m | apply IH].
Qed.

Lemma slice_header (h x : string) (a b : Z) :
  String.length h = 18%nat -> 18 <= a ->
  slice a b (h ++ x) = slice (a - 18) (b - 18) x.
Proof.
  intros Hh Ha. unfold slice.
  replace (b - 18 - (a - 18)) with (b - a) by lia.
  replace (Z.to_nat a) with (String.length h + Z.to_nat (a - 18))%nat by lia.
  now rewrite drop_add, drop_app.
Qed.

End Header.

(** * The claims *)

(** ** Request frames *)

(** C2 fails as stated: the count field of the frames is the decimal
    notation of the count.  For ten elements it is 0010, where four
    hexadecimal digits would be 000A. *)
Lemma count_field_hex_counterexample :
  number 10 = "0010"
  /\ upper (lpad0 4 (render 16 10)) = "000A"
  /\ number 10 <> "000A"
  /\ read_cmd "D0100" 10 = "500000FF03FF000015001004010000D01000010"
  /\ write_cmd "D0100" 7 10 = "500000FF03FF000019001014010000D010000100007".
Proof. repeat split; try reflexivity. discriminate. Qed.

(** C2, amended: for every element count L from 0 to 9999, the count field
    placed in a request frame, for read and for write, is L in decimal
    notation on exactly four digits, padded with zeros on the left (L = 10
    gives 0010).  It follows the opcode and the device, and in a write
    frame the value field follows it. *)
Theorem count_field_decimal (D : string) (L v : Z) :
  0 <= L <= 9999 ->
  number L = dec4 L
  /\ read_cmd D L
     = "500000FF03FF00" ++ upper (zfill 4 (format_x (len D + 16)))
       ++ "001004010000" ++ upper D ++ dec4 L
  /\ write_cmd D v L
     = "500000FF03FF00"
       ++ upper (zfill 4 (format_x (len D + 16 + len (zfill 4 (format_x v)))))
       ++ "001014010000" ++ upper D ++ dec4 L ++ upper (zfill 4 (format_x v)).
Proof.
  intros HL. split; [now apply zfill_str|]. split.
  - unfold read_cmd, number. rewrite zfill_str by assumption.
    rewrite !upper_app, upper_dec4, !len_app.
    change (len "001004010000") with 12. change (len (dec4 L)) with 4.
    replace (12 + (len D + 4)) with (len D + 16) by lia. reflexivity.
  - unfold write_cmd, number. rewrite zfill_str by assumption.
    rewrite !upper_app, upper_dec4, !len_app.
    change (len "001014010000") with 12. change (len (dec4 L)) with 4.
    replace (12 + (len D + (4 + len (zfill 4 (format_x v)))))
      with (len D + 16 + len (zfill 4 (format_x v))) by lia.
    reflexivity.
Qed.

Lemma count_field_decimal_witness :
  0 <= 10 <= 9999
  /\ read_cmd "D0100" 10 = "500000FF03FF000015001004010000D01000010"
  /\ write_cmd "D0100" 7 10 = "500000FF03FF000019001014010000D010000100007".
Proof.
  assert (0 <= 10 <= 9999) as H by lia.
  split; [exact H|].
  destruct (count_field_decimal "D0100" 10 7 H) as (_ & Hr & Hw).
  split; [rewrite Hr | rewrite Hw]; reflexivity.
Defined.

(** C3: the read frame for device D0100 and two elements is the text
    500000FF03FF000015001004010000D01000002: the envelope, the length of
    the body on four hexadecimal digits (0015, the body has 21 characters),
    and the body made of the read opcode, the device and the count 0002,
    all in upper case.  It is the text that [read] hands to the socket. *)
Theorem read_frame_D0100_2 :
  read_cmd "D0100" 2 = "500000FF03FF000015001004010000D01000002"
  /\ read_cmd "D0100" 2
     = upper ("500000FF03FF00" ++ "0015"
              ++ "001004010000" ++ "D0100" ++ "0002")
  /\ len ("001004010000" ++ "D0100" ++ "0002") = 21
  /\ forall fuel answers,
      sent (snd (read fuel "D0100" 2 (plc answers)))
      = ["500000FF03FF000015001004010000D01000002"].
Proof.
  repeat split; try reflexivity.
  intros fuel answers. rewrite read_sent. reflexivity.
Qed.

(** C4: for every device D, count L (not negative) and value v with
    0 <= v <= 0xFFFF, the write frame is the frame of the specification:
    upper case of the envelope, the length of the body on four hexadecimal
    digits and the body, where the body is the write opcode, D, L padded
    with zeros to four digits and v on four hexadecimal digits.  It is the
    text that [write] sends. *)
Theorem write_frame_as_specified (D : string) (L v : Z) :
  0 <= L -> 0 <= v <= 65535 ->
  write_cmd D v L = spec_write_frame D L v
  /\ forall fuel w w1,
      send (write_cmd D v L) w = (Ret 0, w1) ->
      sent (snd (write fuel D v L w)) = (sent w ++ [spec_write_frame D L v])%list.
Proof.
  intros HL Hv.
  assert (write_cmd D v L = spec_write_frame D L v) as E.
  { unfold write_cmd, spec_write_frame, number, str.
    rewrite (signed_nonneg 10 L) by assumption.
    rewrite zfill_render, (zfill_format_x v) by assumption.
    unfold format_x. rewrite signed_nonneg by (unfold len; lia).
    now rewrite zfill_render. }
  split; [exact E|].
  intros fuel w w1 Hs. rewrite write_sent, Hs. cbn [snd].
  rewrite (send_sent _ _ _ _ Hs), E. reflexivity.
Qed.

Lemma write_frame_as_specified_witness :
  write_cmd "D0100" 255 1 = "500000FF03FF000019001014010000D0100000100FF"
  /\ spec_write_frame "D0100" 1 255
     = "500000FF03FF000019001014010000D0100000100FF".
Proof.
  destruct (write_frame_as_specified "D0100" 1 255 ltac:(lia) ltac:(lia))
    as [E _].
  split; [reflexivity|]. rewrite <- E. reflexivity.
Defined.

(** ** The exchange and its outcomes *)

(** C10: [send] and [recv] never let an exception through.  [send] returns
    0 or 1; [recv] returns a pair of a code, 0 or 1, and a datum, and the
    datum is the empty list whenever the code is not 0. *)
Theorem send_recv_total (cmd : string) (w : world) :
  (exists cd w', send cmd w = (Ret cd, w') /\ (cd = 0 \/ cd = 1))
  /\ (exists cd data w',
        recv w = (Ret (cd, data), w')
        /\ (cd = 0 \/ cd = 1)
        /\ (cd <> 0 -> data = VList [])).
Proof.
  split; [apply send_returns|].
  destruct (recv_returns w) as (cd & data & w' & E & [[-> _]|[-> ->]]).
  - exists 0, data, w'. repeat split; [exact E | now left | congruence].
  - exists 1, (VList []), w'. repeat split; [exact E | now right].
Qed.

(** X14: when the response that the first receive hands over has
    something else than 0000 at offsets 18 to 22, [read] returns the
    data-error value [[None]], which is not a list of numbers, and [write]
    returns 1, not 0. *)
Theorem status_check (fuel : nat) (D : string) (L v : Z) (d : string) :
  slice 18 22 d <> "0000" ->
  (forall w w1 w2,
      send (read_cmd D L) w = (Ret 0, w1) ->
      recv w1 = (Ret (0, VStr d), w2) ->
      read fuel D L w = (Ret (VList [VList [VNone]]), w2))
  /\ (forall w w1 w2,
      send (write_cmd D v L) w = (Ret 0, w1) ->
      recv w1 = (Ret (0, VStr d), w2) ->
      write fuel D v L w = (Ret (VInt 1), w2))
  /\ classify (VList [VList [VNone]]) = Some DeviceError
  /\ forall l, forallb is_word l = true -> VList l <> VList [VList [VNone]].
Proof.
  intros Hst. repeat split.
  - intros w w1 w2 Hs Hr.
    apply read_status_bad with d; [|exact Hst].
    now apply exchange_answer with w1.
  - intros w w1 w2 Hs Hr.
    rewrite (write_status fuel D v L w w2 d)
      by now apply exchange_answer with w1.
    destruct (String.eqb_spec (slice 18 22 d) "0000");
      [contradiction | reflexivity].
  - intros l Hl [= ->]. discriminate Hl.
Qed.

Lemma status_check_witness :
  slice 18 22 "D00000FF03FF000004C051" <> "0000"
  /\ fst (read 0 "D0100" 1 (plc [Text "D00000FF03FF000004C051"]))
     = Ret (VList [VList [VNone]])
  /\ fst (write 0 "D0100" 7 1 (plc [Text "D00000FF03FF000004C051"]))
     = Ret (VInt 1).
Proof.
  assert (slice 18 22 "D00000FF03FF000004C051" <> "0000") as H
      by (vm_compute; discriminate).
  split; [exact H|].
  destruct (status_check 0 "D0100" 1 7 _ H) as (Hr & Hw & _).
  split.
  - erewrite Hr; reflexivity.
  - erewrite Hw; reflexivity.
Defined.

(** C6: a response with status 0000 and payload 0001 then 0002, read with
    length 2, is decoded as the sequence [1, 2]. *)
Theorem decode_two_words (fuel : nat) (D h t : string) (w w1 w2 : world) :
  String.length h = 18%nat ->
  send (read_cmd D 2) w = (Ret 0, w1) ->
  recv w1 = (Ret (0, VStr (h ++ "0000" ++ "0001" ++ "0002" ++ t)), w2) ->
  read fuel D 2 w = (Ret (VList [VInt 1; VInt 2]), w2).
Proof.
  intros Hh Hs Hr.
  set (d := h ++ "0000" ++ "0001" ++ "0002" ++ t) in *.
  assert (slice 18 22 d = "0000") as Hst
      by (unfold d; rewrite slice_header by (assumption || lia); reflexivity).
  assert (slot d 0 = "0001") as H0
      by (unfold d, slot; rewrite slice_header by (assumption || lia);
          reflexivity).
  assert (slot d 1 = "0002") as H1
      by (unfold d, slot; rewrite slice_header by (assumption || lia);
          reflexivity).
  rewrite (read_decoded fuel D 2 w w2 d); [|now apply exchange_answer with w1|exact Hst].
  change (range 2) with [0; 1]. cbn [words]. rewrite H0, H1. reflexivity.
Qed.

Lemma decode_two_words_witness :
  fst (read 0 "D0100" 2 (plc [Text "D00000FF03FF00000C000000010002"]))
  = Ret (VList [VInt 1; VInt 2]).
Proof.
  erewrite (decode_two_words 0 "D0100" "D00000FF03FF00000C" "");
    reflexivity.
Defined.

(** C7: in a read with status 0000, a payload slot that is the empty text
    is decoded as the empty-text marker.  The turn of the loop for that
    slot returns and appends the marker; [read] returns a value, in which
    the element of that slot is never a number; and when the slots before
    it decode, [read] returns the list of the requested length with the
    marker at that slot. *)
Theorem absent_marker (fuel : nat) (D : string) (L i : Z) (d : string)
        (w w1 w2 : world) :
  send (read_cmd D L) w = (Ret 0, w1) ->
  recv w1 = (Ret (0, VStr d), w2) ->
  slice 18 22 d = "0000" ->
  0 <= i < L ->
  slot d i = "" ->
  (forall data,
      decode_slot (VStr d) i data w2 = (Ret (data ++ [VStr ""])%list, w2))
  /\ (exists v,
        read fuel D L w = (Ret v, w2)
        /\ forall l n, v = VList l ->
                       nth_error l (Z.to_nat i) <> Some (VInt n))
  /\ ((forall j, 0 <= j < i -> word (slot d j) <> None) ->
      exists l,
        read fuel D L w = (Ret (VList l), w2)
        /\ List.length l = Z.to_nat L
        /\ nth_error l (Z.to_nat i) = Some (VStr "")).
Proof.
  intros Hs Hr Hst Hi Hempty.
  assert (word (slot d i) = Some (VStr "")) as Hw by now rewrite Hempty.
  assert (exchange fuel (read_cmd D L) w = (Ret (VStr d), w2)) as Hx
      by now apply exchange_answer with w1.
  pose proof (read_decoded fuel D L w w2 d Hx Hst) as Hread.
  split; [|split].
  - intros data. now rewrite decode_slot_word, Hw.
  - destruct (words d (range L)) as [l|] eqn:El.
    + exists (VList l). split; [exact Hread|].
      intros l' n [= <-].
      destruct (words_nth d (range L) l (Z.to_nat i) i El (range_nth L i Hi))
        as (v & Hv & ->).
      rewrite Hw in Hv. injection Hv as <-. discriminate.
    + exists (VList [VList [VExc ValueError]]). split; [exact Hread|].
      intros l' n [= <-].
      destruct (Z.to_nat i) as [|[|k]]; discriminate.
  - intros Hbefore.
    destruct (words_defined d (range L)) as [l El].
    { intros j Hj. apply range_In in Hj.
      destruct (Z.lt_ge_cases j i) as [Hlt|Hge]; [apply Hbefore; lia|].
      rewrite (slot_empty_mono d i j) by (lia || assumption). discriminate. }
    exists l. rewrite El in Hread. split; [exact Hread|]. split.
    + now rewrite (words_length _ _ _ El), range_length.
    + destruct (words_nth d (range L) l (Z.to_nat i) i El (range_nth L i Hi))
        as (v & Hv & ->).
      now rewrite Hw in Hv.
Qed.

Lemma absent_marker_witness :
  fst (read 0 "D0100" 3 (plc [Text "D00000FF03FF00000800000001"]))
  = Ret (VList [VInt 1; VStr ""; VStr ""])
  /\ exists l,
      fst (read 0 "D0100" 3 (plc [Text "D00000FF03FF00000800000001"]))
      = Ret (VList l)
      /\ nth_error l 1 = Some (VStr "").
Proof.
  split; [reflexivity|].
  destruct (absent_marker 0 "D0100" 3 1 "D00000FF03FF00000800000001"
              (plc [Text "D00000FF03FF00000800000001"])
              (snd (send (read_cmd "D0100" 3)
                         (plc [Text "D00000FF03FF00000800000001"])))
              (snd (read 0 "D0100" 3
                         (plc [Text "D00000FF03FF00000800000001"])))
              eq_refl eq_refl eq_refl ltac:(lia) eq_refl)
    as (_ & _ & H).
  destruct H as (l & E & _ & Hn).
  - intros j Hj. assert (j = 0) as -> by lia. vm_compute. discriminate.
  - exists l. split; [now rewrite E | exact Hn].
Defined.

(** C9: the three outcome classes of [read] return values that differ
    pairwise.  A failed send or a failed receive gives the nested list
    holding the raised exception; a response with a status other than 0000
    gives [[None]]; a successful decoding gives a flat list of numbers and
    empty-text markers.  [classify], which looks at the returned value
    only, tells the three apart. *)
Theorem read_outcomes_distinguishable (fuel : nat) (D : string) (L : Z)
        (w : world) :
  (forall cd w1,
      send (read_cmd D L) w = (Ret cd, w1) -> cd <> 0 ->
      exists v w',
        read (S fuel) D L w = (Ret v, w')
        /\ v = VList [VList [VExc Exception_]]
        /\ classify v = Some TransportFailure)
  /\ (forall w1 cd x w2,
      send (read_cmd D L) w = (Ret 0, w1) ->
      recv w1 = (Ret (cd, x), w2) -> cd <> 0 ->
      exists v w',
        read (S fuel) D L w = (Ret v, w')
        /\ v = VList [VList [VExc Exception_]]
        /\ classify v = Some TransportFailure)
  /\ (forall w1 d w2,
      send (read_cmd D L) w = (Ret 0, w1) ->
      recv w1 = (Ret (0, VStr d), w2) ->
      slice 18 22 d <> "0000" ->
      exists v,
        read (S fuel) D L w = (Ret v, w2)
        /\ v = VList [VList [VNone]]
        /\ classify v = Some DeviceError)
  /\ (forall w1 d w2 l,
      send (read_cmd D L) w = (Ret 0, w1) ->
      recv w1 = (Ret (0, VStr d), w2) ->
      slice 18 22 d = "0000" ->
      words d (range L) = Some l ->
      exists v,
        read (S fuel) D L w = (Ret v, w2)
        /\ v = VList l
        /\ forallb is_word l = true
        /\ classify v = Some Success).
Proof.
  repeat split.
  - intros cd w1 Hs Hcd. eexists _, _. split; [|split; reflexivity].
    apply read_raise. apply exchange_send_fails with cd; eassumption.
  - intros w1 cd x w2 Hs Hr Hcd. eexists _, _. split; [|split; reflexivity].
    apply read_raise. exact (exchange_retry fuel _ w w1 w2 cd x Hs Hr Hcd).
  - intros w1 d w2 Hs Hr Hst. eexists. split; [|split; reflexivity].
    apply read_status_bad with d; [|exact Hst].
    now apply exchange_answer with w1.
  - intros w1 d w2 l Hs Hr Hst Hl. exists (VList l).
    pose proof (words_are_words _ _ _ Hl) as Hall.
    split; [|split; [reflexivity | split; [exact Hall|]]].
    + rewrite (read_decoded (S fuel) D L w w2 d);
        [now rewrite Hl | now apply exchange_answer with w1 | exact Hst].
    + now apply classify_words.
Qed.

Lemma read_outcomes_distinguishable_witness :
  (exists v w',
      read 1 "D0100" 1 (mkWorld true None [] [] [] 0) = (Ret v, w')
      /\ classify v = Some TransportFailure)
  /\ (exists v w',
      read 1 "D0100" 1 (plc [Text "D00000FF03FF000004C051"]) = (Ret v, w')
      /\ classify v = Some DeviceError)
  /\ (exists v w',
      read 1 "D0100" 1 (plc [Text "D00000FF03FF00000800000001"]) = (Ret v, w')
      /\ classify v = Some Success).
Proof.
  split; [|split].
  - destruct (read_outcomes_distinguishable
                0 "D0100" 1 (mkWorld true None [] [] [] 0))
      as (H & _).
    destruct (H 1 (mkWorld true None [] [] [] 0) eq_refl ltac:(lia))
      as (v & w' & E & _ & C).
    now exists v, w'.
  - destruct (read_outcomes_distinguishable
                0 "D0100" 1 (plc [Text "D00000FF03FF000004C051"]))
      as (_ & _ & H & _).
    edestruct H as (v & E & _ & C);
      [reflexivity | reflexivity | vm_compute; discriminate |].
    eexists v, _. split; [exact E | exact C].
  - destruct (read_outcomes_distinguishable
                0 "D0100" 1 (plc [Text "D00000FF03FF00000800000001"]))
      as (_ & _ & _ & H).
    edestruct H as (v & E & _ & _ & C);
      [reflexivity | reflexivity | reflexivity | reflexivity |].
    eexists v, _. split; [exact E | exact C].
Defined.

(** C1, on the failing input: the first receive times out and the second
    one brings a well-formed response.  The loop of lines 131-137 receives
    that response and raises all the same, so [read] returns the nested
    list holding the exception and [write] returns the exception, although
    the same response received at the first attempt is decoded. *)
Theorem retry_discards_second_answer (fuel : nat) :
  fst (read (S fuel) "D0100" 1
         (plc [Fails OSError; Text "D00000FF03FF00000800000001"]))
  = Ret (VList [VList [VExc Exception_]])
  /\ fst (write (S fuel) "D0100" 7 1
            (plc [Fails OSError; Text "D00000FF03FF0000040000"]))
     = Ret (VExc Exception_)
  /\ recv_script
       (snd (read (S fuel) "D0100" 1
               (plc [Fails OSError; Text "D00000FF03FF00000800000001"])))
     = []
  /\ fst (read (S fuel) "D0100" 1
            (plc [Text "D00000FF03FF00000800000001"]))
     = Ret (VList [VInt 1])
  /\ fst (write (S fuel) "D0100" 7 1 (plc [Text "D00000FF03FF0000040000"]))
     = Ret (VInt 0).
Proof. repeat split; reflexivity. Qed.

(** C5, on the failing input: the first receive times out and the second
    one brings a response whose status is C051, not 0000.  The response
    never reaches the status test of lines 138 and 191: the retry loop
    raises after receiving it (the defect of C1), so [read] returns the
    transport-error value instead of the data-error value [[None]] and
    [write] returns the exception instead of 1.  The same response handed
    over by the first receive gives [[None]] and 1. *)
Theorem bad_status_after_retry (fuel : nat) :
  slice 18 22 "D00000FF03FF000004C051" <> "0000"
  /\ fst (read (S fuel) "D0100" 1
            (plc [Fails OSError; Text "D00000FF03FF000004C051"]))
     = Ret (VList [VList [VExc Exception_]])
  /\ fst (read (S fuel) "D0100" 1
            (plc [Fails OSError; Text "D00000FF03FF000004C051"]))
     <> Ret (VList [VList [VNone]])
  /\ fst (write (S fuel) "D0100" 7 1
            (plc [Fails OSError; Text "D00000FF03FF000004C051"]))
     = Ret (VExc Exception_)
  /\ fst (write (S fuel) "D0100" 7 1
            (plc [Fails OSError; Text "D00000FF03FF000004C051"]))
     <> Ret (VInt 1)
  /\ fst (read (S fuel) "D0100" 1 (plc [Text "D00000FF03FF000004C051"]))
     = Ret (VList [VList [VNone]])
  /\ fst (write (S fuel) "D0100" 7 1 (plc [Text "D00000FF03FF000004C051"]))
     = Ret (VInt 1).
Proof.
  repeat split; try reflexivity; vm_compute; discriminate.
Qed.

(** ** Closing *)

(** C8 fails as stated: on a sound open socket the second [close] returns
    0 like the first one, not 1. *)
Lemma close_twice_counterexample :
  exists w1 w2,
    close (plc []) = (Ret 0, w1)
    /\ close w1 = (Ret 0, w2)
    /\ fst (close w1) <> Ret 1.
Proof.
  eexists _, _. repeat split. cbn. discriminate.
Qed.

(** C8, amended: calling [close] twice does not crash.  Each call returns
    a status, 0 or 1, and leaves the socket closed; the first call returns
    1 exactly when releasing the socket raises [socket.error]; the second
    call returns the success status 0 and changes nothing. *)
Theorem close_twice (w : world) :
  exists cd w1,
    close w = (Ret cd, w1)
    /\ (cd = 0 \/ cd = 1)
    /\ closed w1 = true
    /\ (closed w = false ->
        (cd = 1 <-> exists e, close_fault w = Some e
                              /\ is_socket_error e = true))
    /\ close w1 = (Ret 0, w1).
Proof.
  unfold close, sock_close.
  destruct (closed w) eqn:Ec.
  - exists 0, w. rewrite Ec. repeat split; auto; discriminate.
  - destruct (close_fault w) as [e|] eqn:Ef.
    + destruct (is_socket_error e) eqn:Ee.
      * exists 1, (set_closed w). repeat split; auto.
        exists e. auto.
      * exists 0, (set_closed w). repeat split; auto; try discriminate.
        intros (e' & [= <-] & He). congruence.
    + exists 0, (set_closed w). repeat split; auto; try discriminate.
      intros (e' & He & _). discriminate.
Qed.

(** * Further properties of the client *)

(** ** Hexadecimal digits read back *)

Section HexRoundTrip.

Lemma hex_char_facts (c : ascii) :
  hex_val c <> None ->
  is_space c = false
  /\ (c =? "_")%char = false
  /\ (c =? "+")%char = false
  /\ (c =? "-")%char = false
  /\ ((c =? "x") || (c =? "X"))%char = false.
Proof.
  destruct c as [[] [] [] [] [] [] [] []]; vm_compute; intros H;
    try (exfalso; apply H; reflexivity); repeat split.
Qed.

Lemma hex_val_range (c : ascii) (d : Z) : hex_val c = Some d -> 0 <= d <= 15.
Proof.
  unfold hex_val. set (n := Z.of_N (N_of_ascii c)).
  destruct (Z.leb_spec 48 n), (Z.leb_spec n 57); cbn [andb];
    [intros [= <-]; lia | | |];
    (destruct (Z.leb_spec 97 n), (Z.leb_spec n 102); cbn [andb];
     [intros [= <-]; lia | | |]);
    (destruct (Z.leb_spec 65 n), (Z.leb_spec n 70); cbn [andb];
     [intros [= <-]; lia | | |]); discriminate.
Qed.

(** The upper-case digit of value [d] reads back as [d]. *)
Lemma hex_val_upper_digit (d : Z) :
  0 <= d < 16 -> hex_val (upper_char (digit_char d)) = Some d.
Proof.
  intros H.
  assert (d = 0 \/ d = 1 \/ d = 2 \/ d = 3 \/ d = 4 \/ d = 5 \/ d = 6 \/ d = 7
          \/ d = 8 \/ d = 9 \/ d = 10 \/ d = 11 \/ d = 12 \/ d = 13
          \/ d = 14 \/ d = 15) as E by lia.
  repeat (destruct E as [E|E]; [subst d; reflexivity|]).
  subst d; reflexivity.
Qed.

Lemma hex_digits_snoc (c : ascii) (d : Z) (s : string) :
  hex_val c = Some d ->
  forall us acc a,
    hex_digits us acc s = Some a ->
    hex_digits us acc (s ++ String c EmptyString) = Some (16 * a + d).
Proof.
  intros Hc.
  assert ((c =? "_")%char = false) as Hus
      by (apply hex_char_facts; congruence).
  induction s as [|x r IH]; intros us acc a; cbn [hex_digits append].
  - destruct us; [discriminate|]. intros [= <-]. now rewrite Hus, Hc.
  - destruct (x =? "_")%char.
    + destruct us; [discriminate | apply IH].
    + destruct (hex_val x); [apply IH | discriminate].
Qed.

Lemma hex_digits_zeros (k : nat) (s : string) :
  hex_digits false 0 (zeros k ++ s) = hex_digits false 0 s.
Proof. induction k as [|k IH]; [reflexivity | exact IH]. Qed.

Lemma upper_zeros (k : nat) : upper (zeros k) = zeros k.
Proof. induction k as [|k IH]; [reflexivity | cbn; now rewrite IH]. Qed.

(** The digits of [n], in upper case, read back as [n]. *)
Lemma hex_digits_upper_digits (f : nat) :
  forall n, 0 <= n < 16 ^ Z.of_nat (S f) ->
            hex_digits false 0 (upper (digits (S f) 16 n)) = Some n.
Proof.
  induction f as [|f IH]; intros n Hn.
  - change (16 ^ Z.of_nat 1) with 16 in Hn.
    cbn [digits]. destruct (Z.ltb_spec n 16); [|lia].
    cbn [upper hex_digits].
    destruct (hex_char_facts (upper_char (digit_char n))) as (_ & -> & _);
      [rewrite hex_val_upper_digit by lia; discriminate|].
    rewrite hex_val_upper_digit by lia. f_equal; lia.
  - change (digits (S (S f)) 16 n)
      with (if n <? 16 then String (digit_char n) EmptyString
            else digits (S f) 16 (n / 16)
                 ++ String (digit_char (n mod 16)) EmptyString).
    destruct (Z.ltb_spec n 16).
    + cbn [upper hex_digits].
      destruct (hex_char_facts (upper_char (digit_char n))) as (_ & -> & _);
        [rewrite hex_val_upper_digit by lia; discriminate|].
      rewrite hex_val_upper_digit by lia. f_equal; lia.
    + rewrite upper_app. cbn [upper].
      rewrite (hex_digits_snoc _ (n mod 16) _
                 (hex_val_upper_digit _ (Z.mod_pos_bound n 16 ltac:(lia)))
                 false 0 (n / 16)).
      * f_equal. Z.to_euclidean_division_equations; lia.
      * apply IH. split; [apply Z.div_pos; lia|].
        apply Z.div_lt_upper_bound; [lia|].
        rewrite Nat2Z.inj_succ, Z.pow_succ_r in Hn by lia. lia.
Qed.

Lemma all_hex_app (a b : string) :
  all_hex (a ++ b) = all_hex a && all_hex b.
Proof.
  induction a as [|c a IH]; [reflexivity|]. cbn [append all_hex].
  destruct (hex_val c); [exact IH | reflexivity].
Qed.

Lemma all_hex_zeros (k : nat) : all_hex (zeros k) = true.
Proof. induction k as [|k IH]; [reflexivity | exact IH]. Qed.

Lemma all_hex_upper_digits (f : nat) :
  forall n, 0 <= n < 16 ^ Z.of_nat (S f) ->
            all_hex (upper (digits (S f) 16 n)) = true.
Proof.
  induction f as [|f IH]; intros n Hn.
  - change (16 ^ Z.of_nat 1) with 16 in Hn.
    cbn [digits]. destruct (Z.ltb_spec n 16); [|lia].
    cbn [upper all_hex]. now rewrite hex_val_upper_digit by lia.
  - change (digits (S (S f)) 16 n)
      with (if n <? 16 then String (digit_char n) EmptyString
            else digits (S f) 16 (n / 16)
                 ++ String (digit_char (n mod 16)) EmptyString).
    destruct (Z.ltb_spec n 16).
    + cbn [upper all_hex]. now rewrite hex_val_upper_digit by lia.
    + rewrite upper_app, all_hex_app. cbn [upper all_hex].
      rewrite hex_val_upper_digit by (apply Z.mod_pos_bound; lia).
      rewrite IH; [reflexivity|].
      split; [apply Z.div_pos; lia|].
      apply Z.div_lt_upper_bound; [lia|].
      rewrite Nat2Z.inj_succ, Z.pow_succ_r in Hn by lia. lia.
Qed.

Lemma lstrip_hex (s : string) : all_hex s = true -> lstrip s = s.
Proof.
  destruct s as [|c r]; [reflexivity|]. cbn [all_hex lstrip].
  destruct (hex_val c) eqn:E; [|discriminate]. intros _.
  destruct (hex_char_facts c) as (-> & _); [congruence | reflexivity].
Qed.

Lemma rstrip_hex (s : string) : all_hex s = true -> rstrip s = s.
Proof.
  induction s as [|c r IH]; [reflexivity|]. cbn [all_hex rstrip].
  destruct (hex_val c) eqn:E; [|discriminate]. intros Hr.
  rewrite (IH Hr). destruct r; [|reflexivity].
  destruct (hex_char_facts c) as (-> & _); [congruence | reflexivity].
Qed.

(** On a text of hexadecimal digits [int(s, 16)] is the plain positional
    value: no blank, sign, prefix or underscore is involved. *)
Lemma int16_hex (s : string) :
  s <> EmptyString -> all_hex s = true -> int16 s = hex_digits false 0 s.
Proof.
  intros Hne Hs. unfold int16. rewrite (lstrip_hex s Hs), (rstrip_hex s Hs).
  destruct s as [|c r]; [congruence|].
  cbn [all_hex] in Hs. destruct (hex_val c) eqn:Ec; [|discriminate].
  assert (hex_val c <> None) as Hc by congruence.
  destruct (hex_char_facts c Hc) as (_ & Hus & Hplus & Hminus & _).
  assert (unprefix (String c r) = String c r) as Hun.
  { destruct r as [|x r'].
    - clear. destruct c as [[] [] [] [] [] [] [] []]; reflexivity.
    - cbn [all_hex] in Hs. destruct (hex_val x) eqn:Ex; [|discriminate].
      destruct (hex_char_facts x) as (_ & _ & _ & _ & Hx); [congruence|].
      clear - Hx. destruct c as [[] [] [] [] [] [] [] []];
        cbn [unprefix]; try reflexivity; now rewrite Hx. }
  transitivity (hex_number (unprefix (String c r))).
  - clear - Hplus Hminus.
    destruct c as [[] [] [] [] [] [] [] []]; try reflexivity;
      discriminate.
  - rewrite Hun. cbn [hex_number]. now rewrite Hus.
Qed.

(** A number below 65536, written as [format(n, 'x').zfill(4).upper()],
    reads back with [int(_, 16)]. *)
Lemma int16_value_field (n : Z) :
  0 <= n <= 65535 -> int16 (value_field n) = Some n.
Proof.
  intros Hn. unfold value_field, format_x.
  rewrite signed_nonneg, zfill_render by lia.
  rewrite (render_fuel 16 ltac:(lia) 3)
    by (change (16 ^ Z.of_nat 4) with 65536; lia).
  unfold lpad0. rewrite upper_app, upper_zeros.
  assert (0 <= n < 16 ^ Z.of_nat 4) as Hn'
      by (change (16 ^ Z.of_nat 4) with 65536; lia).
  rewrite int16_hex.
  - rewrite hex_digits_zeros. now apply hex_digits_upper_digits.
  - destruct (digits_head 3 16 n) as (d & r & E). rewrite E.
    destruct (zeros _); discriminate.
  - rewrite all_hex_app, all_hex_zeros. now apply all_hex_upper_digits.
Qed.

End HexRoundTrip.

(** ** What one call does to the socket *)

Section Effort.

Lemma send_frame (cmd : string) (w w' : world) (cd : Z) :
  send cmd w = (Ret cd, w') ->
  naps w' = naps w /\ recv_script w' = recv_script w
  /\ closed w' = closed w /\ close_fault w' = close_fault w.
Proof.
  unfold send, sock_send, encode_utf8.
  destruct (closed w) eqn:Ec.
  - intros [= <- <-]. auto.
  - destruct (send_script w) as [|[e|] rest]; intros [= <- <-]; cbn; auto.
Qed.

Lemma recv_frame (w w' : world) (r : Z * value) :
  recv w = (Ret r, w') ->
  naps w' = naps w /\ sent w' = sent w /\ closed w' = closed w
  /\ (List.length (recv_script w)
      <= List.length (recv_script w') + 1)%nat.
Proof.
  unfold recv, sock_recv_text.
  destruct (closed w) eqn:Ec.
  - intros [= <- <-]. repeat split; auto; lia.
  - destruct (recv_script w) as [|[s|e] rest] eqn:Er; intros [= <- <-];
      cbn; rewrite ?Er; cbn; repeat split; auto; lia.
Qed.

Lemma send_closed (cmd : string) (w : world) :
  closed w = true -> send cmd w = (Ret 1, w).
Proof. intros H. unfold send, sock_send. now rewrite H. Qed.

Lemma status_short (d : string) :
  (String.length d < 22)%nat -> slice 18 22 d <> "0000".
Proof.
  intros H. unfold slice. change (Z.to_nat (22 - 18)) with 4%nat.
  change (Z.to_nat 18) with 18%nat.
  do 22 (destruct d as [|? d]; [cbn; discriminate|]).
  cbn in H. lia.
Qed.

(** The response of the exchange and what it cost, for any fuel that
    allows one turn of the loop. *)
Lemma exchange_cases (cmd : string) (w : world) :
  exists o w',
    (forall f, exchange (S f) cmd w = (o, w'))
    /\ (o = Raise Exception_ \/ exists d, o = Ret (VStr d))
    /\ (naps w' <= naps w + 1)%nat
    /\ (List.length (recv_script w)
        <= List.length (recv_script w') + 2)%nat
    /\ (sent w' = sent w \/ sent w' = (sent w ++ [cmd])%list)
    /\ closed w' = closed w.
Proof.
  destruct (send_returns cmd w) as (cd & w1 & Hs & Hcd).
  destruct (send_frame _ _ _ _ Hs) as (Hn1 & Hr1 & Hc1 & _).
  pose proof (send_sent _ _ _ _ Hs) as Hs1.
  destruct Hcd as [-> | ->]; cbn in Hs1.
  - destruct (recv_returns w1)
      as (cd' & x & w2 & Hr & [[-> [d ->]] | [-> ->]]);
      destruct (recv_frame _ _ _ Hr) as (Hn2 & Hs2 & Hc2 & Hl2).
    + exists (Ret (VStr d)), w2.
      split; [intros f; now apply exchange_answer with w1|].
      split; [right; eauto|].
      rewrite Hn2, Hn1, Hc2, Hc1, Hs2, Hs1, <- Hr1.
      repeat split; auto; lia.
    + destruct (recv_returns (add_nap w2)) as (cd3 & x3 & w3 & Hr3 & _).
      destruct (recv_frame _ _ _ Hr3) as (Hn3 & Hs3 & Hc3 & Hl3).
      cbn in Hn3, Hs3, Hc3, Hl3.
      exists (Raise Exception_), w3.
      split.
      { intros f.
        rewrite (exchange_retry f _ w w1 w2 1 _ Hs Hr ltac:(lia)).
        now rewrite Hr3. }
      split; [now left|].
      rewrite Hn3, Hn2, Hn1, Hc3, Hc2, Hc1, Hs3, Hs2, Hs1, <- Hr1.
      repeat split; auto; lia.
  - exists (Raise Exception_), w1.
    split; [intros f; apply exchange_send_fails with 1; [exact Hs | lia]|].
    split; [now left|].
    rewrite Hn1, Hc1, Hr1, Hs1. repeat split; auto; lia.
Qed.

Lemma read_world (fuel : nat) (D : string) (L : Z) (w w' : world)
      (o : outcome value) :
  exchange fuel (read_cmd D L) w = (o, w') ->
  (o = Raise Exception_ \/ exists d, o = Ret (VStr d)) ->
  snd (read fuel D L w) = w'.
Proof.
  intros E [-> | [d ->]].
  - now rewrite (read_raise _ _ _ _ _ _ E).
  - destruct (String.eqb_spec (slice 18 22 d) "0000") as [Hst|Hst].
    + rewrite (read_decoded _ _ _ _ _ _ E Hst).
      destruct (words d (range L)); reflexivity.
    + now rewrite (read_status_bad _ _ _ _ _ _ E Hst).
Qed.

Lemma write_world (fuel : nat) (D : string) (v L : Z) (w w' : world)
      (o : outcome value) :
  exchange fuel (write_cmd D v L) w = (o, w') ->
  (o = Raise Exception_ \/ exists d, o = Ret (VStr d)) ->
  snd (write fuel D v L w) = w'.
Proof.
  intros E [-> | [d ->]].
  - now rewrite (write_raise _ _ _ _ _ _ _ E).
  - now rewrite (write_status _ _ _ _ _ _ _ E).
Qed.

End Effort.

(** X1: with fuel for one turn of the retry loop, [read] always returns a
    value: the nested list with the raised [Exception], [[None]], the
    nested list with the [ValueError] of a slot that is no number, or a
    flat list of numbers and empty texts with one element per requested
    slot.  [write] always returns 0, 1 or the raised [Exception]. *)
Theorem read_write_return (fuel : nat) (D : string) (L v : Z) (w : world) :
  (exists r w',
      read (S fuel) D L w = (Ret r, w')
      /\ (r = VList [VList [VExc Exception_]]
          \/ r = VList [VList [VNone]]
          \/ r = VList [VList [VExc ValueError]]
          \/ exists l, r = VList l /\ forallb is_word l = true
                       /\ List.length l = Z.to_nat L))
  /\ (exists r w',
      write (S fuel) D v L w = (Ret r, w')
      /\ (r = VInt 0 \/ r = VInt 1 \/ r = VExc Exception_)).
Proof.
  split.
  - destruct (send_returns (read_cmd D L) w) as (cd & w1 & Hs & Hcd).
    destruct Hcd as [-> | ->].
    + destruct (recv_returns w1)
        as (cd' & x & w2 & Hr & [[-> [d ->]] | [-> ->]]).
      * pose proof (exchange_answer (S fuel) _ _ _ _ _ Hs Hr) as Hx.
        destruct (String.eqb_spec (slice 18 22 d) "0000") as [Hst|Hst].
        -- rewrite (read_decoded _ _ _ _ _ _ Hx Hst).
           destruct (words d (range L)) as [l|] eqn:El; eexists _, _;
             (split; [reflexivity|]); [|auto].
           do 3 right. exists l. split; [reflexivity|]. split.
           ++ now apply words_are_words with d (range L).
           ++ now rewrite (words_length _ _ _ El), range_length.
        -- rewrite (read_status_bad _ _ _ _ _ _ Hx Hst).
           eexists _, _. split; [reflexivity | auto].
      * eexists _, _. split; [|left; reflexivity].
        apply read_raise.
        exact (exchange_retry fuel _ w w1 w2 1 _ Hs Hr ltac:(lia)).
    + eexists _, _. split; [|left; reflexivity].
      apply read_raise. apply exchange_send_fails with 1; [exact Hs | lia].
  - destruct (send_returns (write_cmd D v L) w) as (cd & w1 & Hs & Hcd).
    destruct Hcd as [-> | ->].
    + destruct (recv_returns w1)
        as (cd' & x & w2 & Hr & [[-> [d ->]] | [-> ->]]).
      * pose proof (exchange_answer (S fuel) _ _ _ _ _ Hs Hr) as Hx.
        rewrite (write_status _ _ _ _ _ _ _ Hx). eexists _, _.
        split; [reflexivity|].
        destruct (slice 18 22 d =? "0000")%string; auto.
      * eexists _, _. split; [|do 2 right; reflexivity].
        apply write_raise.
        exact (exchange_retry fuel _ w w1 w2 1 _ Hs Hr ltac:(lia)).
    + eexists _, _. split; [|do 2 right; reflexivity].
      apply write_raise. apply exchange_send_fails with 1; [exact Hs | lia].
Qed.

(** X2: one call uses the socket a bounded number of times: it sleeps at
    most once, takes at most two answers from the network, sends its frame
    at most once and never closes the socket; and more fuel than one turn
    changes nothing. *)
Theorem read_write_effort (fuel fuel' : nat) (D : string) (L v : Z)
        (w : world) :
  let wr := snd (read (S fuel) D L w) in
  let ww := snd (write (S fuel) D v L w) in
  read (S fuel) D L w = read (S fuel') D L w
  /\ write (S fuel) D v L w = write (S fuel') D v L w
  /\ (naps wr <= naps w + 1)%nat
  /\ (List.length (recv_script w) <= List.length (recv_script wr) + 2)%nat
  /\ (sent wr = sent w \/ sent wr = (sent w ++ [read_cmd D L])%list)
  /\ closed wr = closed w
  /\ (naps ww <= naps w + 1)%nat
  /\ (List.length (recv_script w) <= List.length (recv_script ww) + 2)%nat
  /\ (sent ww = sent w \/ sent ww = (sent w ++ [write_cmd D v L])%list)
  /\ closed ww = closed w.
Proof.
  cbv zeta.
  destruct (exchange_cases (read_cmd D L) w)
    as (o & w' & E & Ho & B1 & B2 & B3 & B4).
  destruct (exchange_cases (write_cmd D v L) w)
    as (o2 & w2 & E2 & Ho2 & C1 & C2 & C3 & C4).
  rewrite (read_world _ _ _ _ _ _ (E fuel) Ho).
  rewrite (write_world _ _ _ _ _ _ _ (E2 fuel) Ho2).
  repeat split; assumption.
Qed.

(** X3: a send that fails is not retried and nothing is received after
    it: [read] and [write] return their transport-error value at once,
    with no frame logged, no answer taken and no sleep. *)
Theorem failed_send_stops (fuel : nat) (D : string) (L v : Z) (w : world) :
  (forall cd w1,
      send (read_cmd D L) w = (Ret cd, w1) -> cd <> 0 ->
      read fuel D L w = (Ret (VList [VList [VExc Exception_]]), w1)
      /\ sent w1 = sent w /\ recv_script w1 = recv_script w
      /\ naps w1 = naps w)
  /\ (forall cd w1,
      send (write_cmd D v L) w = (Ret cd, w1) -> cd <> 0 ->
      write fuel D v L w = (Ret (VExc Exception_), w1)
      /\ sent w1 = sent w /\ recv_script w1 = recv_script w
      /\ naps w1 = naps w).
Proof.
  split; intros cd w1 Hs Hcd;
    destruct (send_frame _ _ _ _ Hs) as (Hn & Hr & _);
    pose proof (send_sent _ _ _ _ Hs) as Hsent;
    destruct (Z.eqb_spec cd 0) as [|_]; try contradiction;
    (split; [|auto]).
  - apply read_raise. now apply exchange_send_fails with cd.
  - apply write_raise. now apply exchange_send_fails with cd.
Qed.

Lemma failed_send_stops_witness :
  read 0 "D0100" 1
       (mkWorld false None [Some OSError] [Text "D00000FF03FF00000800000001"]
                [] 0)
  = (Ret (VList [VList [VExc Exception_]]),
     mkWorld false None [] [Text "D00000FF03FF00000800000001"] [] 0).
Proof.
  destruct (failed_send_stops
              0 "D0100" 1 0
              (mkWorld false None [Some OSError]
                       [Text "D00000FF03FF00000800000001"] [] 0))
    as (H & _).
  destruct (H 1 (mkWorld false None []
                         [Text "D00000FF03FF00000800000001"] [] 0)
              eq_refl ltac:(lia)) as (E & _).
  exact E.
Defined.

(** X4: after [close], [read] and [write] report a transport error and
    leave the socket as it is: nothing is sent, received or slept. *)
Theorem closed_connection (fuel : nat) (D : string) (L v : Z) (w : world) :
  let w1 := snd (close w) in
  closed w1 = true
  /\ read fuel D L w1 = (Ret (VList [VList [VExc Exception_]]), w1)
  /\ write fuel D v L w1 = (Ret (VExc Exception_), w1).
Proof.
  cbv zeta.
  destruct (close_twice w) as (cd & w1 & E & _ & Hc & _). rewrite E.
  cbn [snd]. split; [exact Hc|]. split.
  - apply read_raise.
    apply exchange_send_fails with 1; [now apply send_closed | lia].
  - apply write_raise.
    apply exchange_send_fails with 1; [now apply send_closed | lia].
Qed.

(** X5: a read of no element (length 0 or negative) to which the first
    receive hands over a response with status 0000 returns the empty
    list. *)
Theorem read_nothing (fuel : nat) (D : string) (L : Z) (d : string)
        (w w1 w2 : world) :
  L <= 0 ->
  send (read_cmd D L) w = (Ret 0, w1) ->
  recv w1 = (Ret (0, VStr d), w2) ->
  slice 18 22 d = "0000" ->
  read fuel D L w = (Ret (VList []), w2).
Proof.
  intros HL Hs Hr Hst.
  rewrite (read_decoded fuel D L w w2 d);
    [|now apply exchange_answer with w1 | exact Hst].
  unfold range. replace (Z.to_nat L) with 0%nat by lia. reflexivity.
Qed.

Lemma read_nothing_witness :
  fst (read 0 "D0100" (-3) (plc [Text "D00000FF03FF00000800000001"]))
  = Ret (VList []).
Proof.
  erewrite (read_nothing 0 "D0100" (-3)); [reflexivity | lia | | | ];
    reflexivity.
Defined.




(** X7: a response of fewer than 22 characters handed over by the first
    receive, the empty one that a closed peer gives included, has no
    status 0000: [read] returns [[None]] and [write] returns 1. *)
Theorem short_response (fuel : nat) (D : string) (L v : Z) (d : string) :
  (String.length d < 22)%nat ->
  (forall w w1 w2,
      send (read_cmd D L) w = (Ret 0, w1) ->
      recv w1 = (Ret (0, VStr d), w2) ->
      read fuel D L w = (Ret (VList [VList [VNone]]), w2))
  /\ (forall w w1 w2,
      send (write_cmd D v L) w = (Ret 0, w1) ->
      recv w1 = (Ret (0, VStr d), w2) ->
      write fuel D v L w = (Ret (VInt 1), w2)).
Proof.
  intros Hd. pose proof (status_short d Hd) as Hst.
  split; intros w w1 w2 Hs Hr.
  - apply read_status_bad with d; [now apply exchange_answer with w1|].
    exact Hst.
  - rewrite (write_status fuel D v L w w2 d)
      by now apply exchange_answer with w1.
    destruct (String.eqb_spec (slice 18 22 d) "0000");
      [contradiction | reflexivity].
Qed.

Lemma short_response_witness :
  fst (read 0 "D0100" 1 (plc [Text ""])) = Ret (VList [VList [VNone]])
  /\ fst (write 0 "D0100" 7 1 (plc [Text "D00000FF03FF00000400"]))
     = Ret (VInt 1).
Proof.
  split.
  - destruct (short_response 0 "D0100" 1 7 "" ltac:(cbn; lia)) as (H & _).
    erewrite H; reflexivity.
  - destruct (short_response 0 "D0100" 1 7 "D00000FF03FF00000400"
                             ltac:(cbn; lia)) as (_ & H).
    erewrite H; reflexivity.
Defined.

(** X8: [write] looks at the status only: a response handed over by the
    first receive with 0000 behind its 18 header characters makes it
    return 0, whatever the header is and whatever follows the status. *)
Theorem write_status_only (fuel : nat) (D : string) (L v : Z) (h p : string)
        (w w1 w2 : world) :
  String.length h = 18%nat ->
  send (write_cmd D v L) w = (Ret 0, w1) ->
  recv w1 = (Ret (0, VStr (h ++ "0000" ++ p)), w2) ->
  write fuel D v L w = (Ret (VInt 0), w2).
Proof.
  intros Hh Hs Hr.
  rewrite (write_status fuel D v L w w2 (h ++ "0000" ++ p))
    by now apply exchange_answer with w1.
  rewrite slice_header by (assumption || lia). reflexivity.
Qed.

Lemma write_status_only_witness :
  fst (write 0 "D0100" 7 1 (plc [Text "D00000FF03FF0000040000zz"]))
  = Ret (VInt 0).
Proof.
  erewrite (write_status_only 0 "D0100" 1 7 "D00000FF03FF000004" "zz");
    reflexivity.
Defined.

(** ** Words written, words read *)

Section Words.

Lemma value_field_hex4 (v : Z) :
  0 <= v <= 65535 -> value_field v = upper (hex4 v).
Proof. intros H. unfold value_field. now rewrite zfill_format_x. Qed.

Lemma length_value_field (v : Z) :
  0 <= v <= 65535 -> String.length (value_field v) = 4%nat.
Proof. intros H. now rewrite value_field_hex4. Qed.

Lemma slot_behind_header (h p : string) (i : Z) :
  String.length h = 18%nat -> 0 <= i ->
  slot (h ++ "0000" ++ p) i = take 4 (drop (Z.to_nat (4 * i)) p).
Proof.
  intros Hh Hi. rewrite slot_take.
  replace (Z.to_nat (4 * i + 22))
    with (String.length h + (4 + Z.to_nat (4 * i)))%nat by lia.
  now rewrite drop_add, drop_app.
Qed.

Lemma slot_shift (h f p : string) (i : Z) :
  String.length h = 18%nat -> String.length f = 4%nat -> 0 <= i ->
  slot (h ++ "0000" ++ f ++ p) (Z.succ i) = slot (h ++ "0000" ++ p) i.
Proof.
  intros Hh Hf Hi. rewrite !slot_behind_header by lia.
  replace (Z.to_nat (4 * Z.succ i))
    with (String.length f + Z.to_nat (4 * i))%nat by lia.
  now rewrite drop_add, drop_app.
Qed.

Lemma words_shift (h f p : string) (indices : list Z) :
  String.length h = 18%nat -> String.length f = 4%nat ->
  (forall i, In i indices -> 0 <= i) ->
  words (h ++ "0000" ++ f ++ p) (map Z.succ indices)
  = words (h ++ "0000" ++ p) indices.
Proof.
  intros Hh Hf. induction indices as [|i rest IH]; intros Hpos;
    [reflexivity|].
  cbn [map words]. rewrite slot_shift by (auto using in_eq).
  rewrite IH by (intros k Hk; apply Hpos; now right). reflexivity.
Qed.

Lemma range_succ (n : nat) :
  range (Z.of_nat (S n)) = 0 :: map Z.succ (range (Z.of_nat n)).
Proof.
  unfold range. rewrite !Nat2Z.id. cbn [seq map].
  rewrite <- seq_shift, !map_map. f_equal.
  apply map_ext. intros k. lia.
Qed.

Lemma words_payload (h t : string) (vs : list Z) :
  String.length h = 18%nat ->
  Forall (fun v => 0 <= v <= 65535) vs ->
  words (h ++ "0000" ++ payload vs ++ t)
        (range (Z.of_nat (List.length vs)))
  = Some (map VInt vs).
Proof.
  intros Hh. induction 1 as [|v vs Hv Hvs IH]; [reflexivity|].
  cbn [List.length payload map]. rewrite range_succ, app_assoc.
  cbn [words].
  rewrite words_shift
    by (auto using length_value_field;
        intros i Hi; apply range_In in Hi; lia).
  rewrite IH, slot_behind_header by lia.
  change (Z.to_nat (4 * 0)) with 0%nat. cbn [drop].
  rewrite <- (length_value_field v Hv), take_app.
  unfold word. rewrite int16_value_field by assumption.
  rewrite value_field_hex4 by assumption. reflexivity.
Qed.

End Words.

(** X9: what [write] puts in a frame for a value, [read] takes out of a
    response.  A response with status 0000 whose payload is made of the
    value fields of the words [vs], each between 0 and 0xFFFF, read with
    their number as length, gives back [vs] in order. *)
Theorem words_round_trip (fuel : nat) (D h t : string) (vs : list Z)
        (w w1 w2 : world) :
  String.length h = 18%nat ->
  Forall (fun v => 0 <= v <= 65535) vs ->
  send (read_cmd D (Z.of_nat (List.length vs))) w = (Ret 0, w1) ->
  recv w1 = (Ret (0, VStr (h ++ "0000" ++ payload vs ++ t)), w2) ->
  read fuel D (Z.of_nat (List.length vs)) w = (Ret (VList (map VInt vs)), w2).
Proof.
  intros Hh Hvs Hs Hr.
  rewrite (read_decoded fuel D _ w w2 (h ++ "0000" ++ payload vs ++ t)).
  - now rewrite words_payload.
  - now apply exchange_answer with w1.
  - rewrite slice_header by (assumption || lia). reflexivity.
Qed.

Lemma words_round_trip_witness :
  payload [1; 255; 65535] = "000100FFFFFF"
  /\ fst (read 0 "D0100" 3 (plc [Text "D00000FF03FF0000100000000100FFFFFF"]))
     = Ret (VList [VInt 1; VInt 255; VInt 65535]).
Proof.
  split; [reflexivity|].
  erewrite (words_round_trip 0 "D0100" "D00000FF03FF000010" ""
                             [1; 255; 65535]);
    [reflexivity | reflexivity | | reflexivity | reflexivity].
  repeat constructor; lia.
Defined.

(** ** The layout of a frame *)

Section Layout.

Lemma length_zeros (k : nat) : String.length (zeros k) = k.
Proof. induction k as [|k IH]; [reflexivity | cbn; now rewrite IH]. Qed.

Lemma length_lpad0 (width : nat) (s : string) :
  String.length (lpad0 width s) = Nat.max width (String.length s).
Proof. unfold lpad0. rewrite length_app, length_zeros. lia. Qed.

Lemma len_upper (s : string) : len (upper s) = len s.
Proof. unfold len. now rewrite length_upper. Qed.

Lemma upper_char_idem (c : ascii) : upper_char (upper_char c) = upper_char c.
Proof. destruct c as [[] [] [] [] [] [] [] []]; reflexivity. Qed.

Lemma upper_idem (s : string) : upper (upper s) = upper s.
Proof.
  induction s as [|c r IH]; [reflexivity|].
  cbn [upper]. now rewrite upper_char_idem, IH.
Qed.

(** The frame built around any body: its length field reads back as the
    number of characters behind it. *)
Lemma frame_length_field (body : string) :
  let frame :=
    upper ("500000FF03FF00" ++ zfill 4 (format_x (len body)) ++ body) in
  len frame < 65554 ->
  int16 (slice 14 18 frame) = Some (len frame - 18)
  /\ len frame = 18 + len body.
Proof.
  cbv zeta. unfold format_x.
  rewrite signed_nonneg, zfill_render by (unfold len; lia).
  rewrite !upper_app, !len_app, !len_upper.
  change (len "500000FF03FF00") with 14.
  intros Hlen.
  assert (len body <= 65535) as Hb.
  { unfold len in *. rewrite length_lpad0 in Hlen. lia. }
  assert (0 <= len body) as Hb0 by (unfold len; lia).
  rewrite lpad0_render_hex in * by lia.
  change (len (hex4 (len body))) with 4.
  split; [|lia].
  replace (14 + (4 + len body) - 18) with (len body) by lia.
  rewrite <- (int16_value_field (len body)) by lia.
  rewrite value_field_hex4 by lia. reflexivity.
Qed.

End Layout.

Section Ascii.

Lemma is_ascii_app (a b : string) :
  is_ascii (a ++ b) = is_ascii a && is_ascii b.
Proof.
  induction a as [|c a IH]; [reflexivity|]. cbn [append is_ascii].
  now rewrite IH, andb_assoc.
Qed.

Lemma upper_char_ascii (c : ascii) :
  (N_of_ascii c <? 128)%N = true ->
  (N_of_ascii (upper_char c) <? 128)%N = true.
Proof.
  destruct c as [[] [] [] [] [] [] [] []]; vm_compute; intros H;
    (exact H || reflexivity).
Qed.

Lemma is_ascii_upper (s : string) :
  is_ascii s = true -> is_ascii (upper s) = true.
Proof.
  induction s as [|c r IH]; [reflexivity|]. cbn [upper is_ascii].
  rewrite !andb_true_iff. intros [Hc Hr].
  split; [now apply upper_char_ascii | now apply IH].
Qed.

Lemma is_ascii_zeros (k : nat) : is_ascii (zeros k) = true.
Proof. induction k as [|k IH]; [reflexivity | exact IH]. Qed.

Lemma digit_char_ascii (d : Z) :
  (N_of_ascii (digit_char d) <? 128)%N = true.
Proof.
  destruct d as [|q|q]; try reflexivity.
  do 4 (try destruct q as [q|q|]); reflexivity.
Qed.

Lemma is_ascii_digits (f : nat) (base : Z) :
  forall n, is_ascii (digits f base n) = true.
Proof.
  induction f as [|f IH]; intros n; [reflexivity|]. cbn [digits].
  destruct (n <? base); cbn [is_ascii].
  - now rewrite digit_char_ascii.
  - rewrite is_ascii_app, IH. cbn [is_ascii]. now rewrite digit_char_ascii.
Qed.

Lemma is_ascii_signed (base n : Z) : is_ascii (signed base n) = true.
Proof.
  unfold signed, render. destruct (n <? 0); cbn [is_ascii];
    now rewrite is_ascii_digits.
Qed.

Lemma is_ascii_zfill (width : nat) (s : string) :
  is_ascii s = true -> is_ascii (zfill width s) = true.
Proof.
  intros Hs. unfold zfill.
  destruct (width <=? String.length s)%nat; [exact Hs|].
  destruct s as [|c r]; [apply is_ascii_zeros|].
  cbn [is_ascii] in Hs. apply andb_true_iff in Hs as [Hc Hr].
  destruct ((c =? "+") || (c =? "-"))%char; cbn [is_ascii];
    rewrite ?is_ascii_app, is_ascii_zeros; cbn [is_ascii];
    now rewrite ?Hc, ?Hr.
Qed.

End Ascii.

(** X10: in every read or write frame shorter than 65554 characters, for
    an ASCII device and any count and value, the four characters at offset
    14 are the hexadecimal count of the characters that follow them:
    parsed with [int(_, 16)] they give the length of the frame less the 18
    characters of envelope and length field.  (The length is taken before
    the frame is put in upper case, which keeps the length of an ASCII
    text.) *)
Theorem length_field_counts_body (D : string) (L v : Z) :
  is_ascii D = true ->
  (len (read_cmd D L) < 65554 ->
   int16 (slice 14 18 (read_cmd D L)) = Some (len (read_cmd D L) - 18))
  /\ (len (write_cmd D v L) < 65554 ->
      int16 (slice 14 18 (write_cmd D v L))
      = Some (len (write_cmd D v L) - 18))
  /\ is_ascii (read_cmd D L) = true
  /\ is_ascii (write_cmd D v L) = true.
Proof.
  intros HD. split; [|split; [|split]].
  - intros H.
    now apply (frame_length_field ("001004010000" ++ D ++ number L)).
  - intros H.
    now apply (frame_length_field
                 ("001014010000" ++ D ++ number L ++ zfill 4 (format_x v))).
  - unfold read_cmd, number, str, format_x. apply is_ascii_upper.
    rewrite !is_ascii_app, HD, !is_ascii_zfill by apply is_ascii_signed.
    reflexivity.
  - unfold write_cmd, number, str, format_x. apply is_ascii_upper.
    rewrite !is_ascii_app, HD, !is_ascii_zfill by apply is_ascii_signed.
    reflexivity.
Qed.

Lemma length_field_counts_body_witness :
  int16 (slice 14 18 (read_cmd "d0100" 2)) = Some 21
  /\ int16 (slice 14 18 (write_cmd "d0100" (-255) 12345)) = Some 26.
Proof.
  destruct (length_field_counts_body "d0100" 2 0 eq_refl) as (Hr & _).
  destruct (length_field_counts_body "d0100" 12345 (-255) eq_refl)
    as (_ & Hw & _).
  split.
  - rewrite Hr; [reflexivity | vm_compute; reflexivity].
  - rewrite Hw; [reflexivity | vm_compute; reflexivity].
Defined.

(** X11: an ASCII device address is sent in upper case, so ASCII
    addresses that differ only by the case of their letters give the same
    frame; and a frame is its own upper case. *)
Theorem device_case_insensitive (D : string) (L v : Z) :
  is_ascii D = true ->
  is_ascii (upper D) = true
  /\ read_cmd (upper D) L = read_cmd D L
  /\ write_cmd (upper D) v L = write_cmd D v L
  /\ upper (read_cmd D L) = read_cmd D L
  /\ upper (write_cmd D v L) = write_cmd D v L.
Proof.
  intros HD. split; [now apply is_ascii_upper|].
  unfold read_cmd, write_cmd.
  rewrite !len_app, !len_upper, !upper_app, !upper_idem.
  repeat split.
Qed.

Lemma device_case_insensitive_witness :
  read_cmd "d0100" 2 = "500000FF03FF000015001004010000D01000002"
  /\ read_cmd "d0100" 2 = read_cmd "D0100" 2
  /\ write_cmd "d0100" 255 1 = write_cmd "D0100" 255 1.
Proof.
  destruct (device_case_insensitive "d0100" 2 255 eq_refl)
    as (_ & Hr & _).
  destruct (device_case_insensitive "d0100" 1 255 eq_refl)
    as (_ & _ & Hw & _).
  change (upper "d0100") with "D0100" in Hr, Hw.
  split; [reflexivity|]. split; [now rewrite Hr | now rewrite Hw].
Defined.

(** ** Values that do not fit four digits *)

Section Overflow.

Lemma pow_log2_bound (base n : Z) :
  2 <= base -> 0 <= n -> n < base ^ Z.of_nat (S (Z.to_nat (Z.log2 n))).
Proof.
  intros Hb Hn.
  rewrite Nat2Z.inj_succ, Z2Nat.id by apply Z.log2_nonneg.
  destruct (Z.eq_dec n 0) as [->|Hz].
  - apply Z.pow_pos_nonneg; [lia | simpl; lia].
  - apply Z.lt_le_trans with (2 ^ Z.succ (Z.log2 n)).
    + apply Z.log2_spec; lia.
    + apply Z.pow_le_mono_l. lia.
Qed.

(** A number from [base^k] on has more than [k] digits. *)
Lemma length_digits_lower (base : Z) (Hb : 2 <= base) (k : nat) :
  forall f n,
    base ^ Z.of_nat k <= n -> n < base ^ Z.of_nat (S f) ->
    (k < String.length (digits (S f) base n))%nat.
Proof.
  induction k as [|k IH]; intros f n Hlo Hhi.
  - destruct (digits_head f base n) as (d & r & ->). cbn. lia.
  - rewrite Nat2Z.inj_succ, Z.pow_succ_r in Hlo by lia.
    assert (0 < base ^ Z.of_nat k) as Hpos by (apply Z.pow_pos_nonneg; lia).
    destruct f as [|f].
    { change (base ^ Z.of_nat 1) with (base ^ 1) in Hhi.
      rewrite Z.pow_1_r in Hhi. nia. }
    change (digits (S (S f)) base n)
      with (if n <? base then String (digit_char n) EmptyString
            else digits (S f) base (n / base)
                 ++ String (digit_char (n mod base)) EmptyString).
    destruct (Z.ltb_spec n base); [nia|].
    rewrite length_app. cbn [String.length].
    assert (k < String.length (digits (S f) base (n / base)))%nat; [|lia].
    apply IH.
    + apply Z.div_le_lower_bound; lia.
    + apply Z.div_lt_upper_bound; [lia|].
      rewrite Nat2Z.inj_succ, Z.pow_succ_r in Hhi by lia. exact Hhi.
Qed.

Lemma length_zfill (width : nat) (s : string) :
  String.length (zfill width s) = Nat.max width (String.length s).
Proof.
  unfold zfill.
  destruct (Nat.leb_spec width (String.length s)); [lia|].
  destruct s as [|c r]; [rewrite length_zeros; cbn; lia|].
  destruct ((c =? "+") || (c =? "-"))%char; cbn [String.length] in *;
    rewrite length_app, length_zeros; cbn [String.length]; lia.
Qed.

End Overflow.

(** X12: a value above 0xFFFF is neither refused nor cut to four digits.
    Its field in the write frame is the whole hexadecimal notation of the
    value, five characters or more, from which the value reads back, and
    the frame is longer than the 38 characters and the device of a frame
    with a four-digit value. *)
Theorem value_not_truncated (D : string) (L v : Z) :
  65536 <= v ->
  zfill 4 (format_x v) = render 16 v
  /\ (5 <= String.length (render 16 v))%nat
  /\ hex_digits false 0 (upper (render 16 v)) = Some v
  /\ 38 + len D < len (write_cmd D v L).
Proof.
  intros Hv.
  pose proof (pow_log2_bound 16 v ltac:(lia) ltac:(lia)) as Hfuel.
  assert (5 <= String.length (render 16 v))%nat as Hlen.
  { unfold render.
    apply (length_digits_lower 16 ltac:(lia) 4); [|exact Hfuel].
    change (16 ^ Z.of_nat 4) with 65536. lia. }
  assert (zfill 4 (format_x v) = render 16 v) as Hz.
  { unfold format_x. rewrite signed_nonneg, zfill_render by lia.
    unfold lpad0.
    now replace (4 - String.length (render 16 v))%nat with 0%nat by lia. }
  repeat split; try assumption.
  - unfold render. apply hex_digits_upper_digits. lia.
  - unfold write_cmd. rewrite Hz, len_upper, !len_app.
    change (len "500000FF03FF00") with 14.
    change (len "001014010000") with 12.
    pose proof (length_zfill 4 (format_x
      (12 + (len D + (len (number L) + len (render 16 v)))))) as H1.
    pose proof (length_zfill 4 (str L)) as H2.
    unfold number, len in *. lia.
Qed.

Lemma value_not_truncated_witness :
  zfill 4 (format_x 65536) = "10000"
  /\ write_cmd "D0100" 65536 1
     = "500000FF03FF00001A001014010000D0100000110000".
Proof.
  destruct (value_not_truncated "D0100" 1 65536 ltac:(lia)) as (E & _).
  split; [rewrite E|]; reflexivity.
Defined.

(** ** The range of the numbers that are read *)

Section Bounds.

Lemma int16_unfold (s : string) :
  int16 s
  = match rstrip (lstrip s) with
    | EmptyString => None
    | String c r =>
        if (c =? "+")%char then hex_number (unprefix r)
        else if (c =? "-")%char
             then option_map Z.opp (hex_number (unprefix r))
             else hex_number (unprefix (String c r))
    end.
Proof.
  unfold int16. destruct (rstrip (lstrip s)) as [|c r]; [reflexivity|].
  destruct c as [[] [] [] [] [] [] [] []]; reflexivity.
Qed.

Lemma length_lstrip (s : string) :
  (String.length (lstrip s) <= String.length s)%nat.
Proof.
  induction s as [|c r IH]; cbn [lstrip String.length]; [lia|].
  destruct (is_space c); cbn [String.length]; lia.
Qed.

Lemma length_rstrip (s : string) :
  (String.length (rstrip s) <= String.length s)%nat.
Proof.
  induction s as [|c r IH]; cbn [rstrip String.length]; [lia|].
  destruct (rstrip r) as [|x r']; [destruct (is_space c)|];
    cbn [String.length] in *; lia.
Qed.

Lemma length_unprefix (s : string) :
  (String.length (unprefix s) <= String.length s)%nat.
Proof.
  destruct s as [|c [|x r]];
    [cbn; lia
    | destruct c as [[] [] [] [] [] [] [] []]; cbn; lia |].
  assert (unprefix (String c (String x r)) = String c (String x r)
          \/ unprefix (String c (String x r)) = r
          \/ exists y, r = String y (unprefix (String c (String x r))))
    as [-> | [-> | [y E]]].
  { destruct c as [[] [] [] [] [] [] [] []]; cbn [unprefix]; auto.
    destruct ((x =? "x") || (x =? "X"))%char; auto.
    destruct r as [|y r']; auto.
    destruct y as [[] [] [] [] [] [] [] []]; eauto. }
  - lia.
  - cbn; lia.
  - rewrite E at 2. cbn [String.length]. lia.
Qed.

Lemma hex_digits_bound (s : string) :
  forall us acc a,
    0 <= acc -> hex_digits us acc s = Some a ->
    0 <= a /\ a + 1 <= (acc + 1) * 16 ^ Z.of_nat (String.length s).
Proof.
  induction s as [|c r IH]; intros us acc a Hacc; cbn [hex_digits].
  - destruct us; [discriminate|]. intros [= <-]. cbn. lia.
  - cbn [String.length]. rewrite Nat2Z.inj_succ, Z.pow_succ_r by lia.
    assert (0 < 16 ^ Z.of_nat (String.length r)) as Hp
        by (apply Z.pow_pos_nonneg; lia).
    destruct (c =? "_")%char.
    + destruct us; [discriminate|]. intros Hd.
      destruct (IH _ _ _ Hacc Hd). nia.
    + destruct (hex_val c) as [d|] eqn:Ed; [|discriminate].
      pose proof (hex_val_range _ _ Ed) as Hrange. intros Hd.
      destruct (IH _ (16 * acc + d) _ ltac:(lia) Hd). nia.
Qed.

Lemma hex_number_bound (s : string) (a : Z) :
  hex_number s = Some a -> 0 <= a < 16 ^ Z.of_nat (String.length s).
Proof.
  destruct s as [|c r]; [discriminate|]. cbn [hex_number].
  destruct (c =? "_")%char; [discriminate|]. intros H.
  destruct (hex_digits_bound _ _ _ _ (Z.le_refl 0) H). lia.
Qed.

(** A text of [k] characters is read as a number above [-16^(k-1)] and
    below [16^k]: a negative number gives one character to its sign. *)
Lemma int16_bound (s : string) (n : Z) (k : nat) :
  (String.length s <= S k)%nat -> int16 s = Some n ->
  - 16 ^ Z.of_nat k < n < 16 ^ Z.of_nat (S k).
Proof.
  intros Hk. rewrite int16_unfold.
  pose proof (length_lstrip s). pose proof (length_rstrip (lstrip s)).
  destruct (rstrip (lstrip s)) as [|c r]; [discriminate|].
  cbn [String.length] in *.
  assert (0 < 16 ^ Z.of_nat k) as Hp by (apply Z.pow_pos_nonneg; lia).
  assert (forall t a, (String.length t <= k)%nat ->
                      hex_number (unprefix t) = Some a ->
                      0 <= a < 16 ^ Z.of_nat k) as Hr.
  { intros t a Ht Ha. apply hex_number_bound in Ha.
    pose proof (length_unprefix t).
    assert (16 ^ Z.of_nat (String.length (unprefix t)) <= 16 ^ Z.of_nat k)
      by (apply Z.pow_le_mono_r; lia).
    lia. }
  rewrite Nat2Z.inj_succ, Z.pow_succ_r by lia.
  destruct (c =? "+")%char; [|destruct (c =? "-")%char].
  - intros Hn. apply Hr in Hn; lia.
  - destruct (hex_number (unprefix r)) as [a|] eqn:E; [|discriminate].
    intros [= <-]. apply Hr in E; lia.
  - intros Hn. apply hex_number_bound in Hn.
    pose proof (length_unprefix (String c r)) as Hu.
    cbn [String.length] in *.
    assert (16 ^ Z.of_nat (String.length (unprefix (String c r)))
            <= 16 ^ Z.of_nat (S k)) by (apply Z.pow_le_mono_r; lia).
    rewrite Nat2Z.inj_succ, Z.pow_succ_r in * by lia. lia.
Qed.

Lemma length_take (n : nat) (s : string) :
  (String.length (take n s) <= n)%nat.
Proof.
  revert s. induction n as [|n IH]; intros [|c r]; cbn; try lia.
  specialize (IH r). lia.
Qed.

Lemma words_In (d : string) (indices : list Z) :
  forall l x, words d indices = Some l -> In x l ->
              exists i, In i indices /\ word (slot d i) = Some x.
Proof.
  induction indices as [|i rest IH]; intros l x; cbn [words].
  - intros [= <-] [].
  - destruct (word (slot d i)) as [y|] eqn:Ey; [|discriminate].
    destruct (words d rest) as [l'|]; [|discriminate].
    intros [= <-] [<- | Hin].
    + exists i. split; [now left | exact Ey].
    + destruct (IH l' x eq_refl Hin) as (j & Hj & E).
      exists j. split; [now right | exact E].
Qed.

End Bounds.

(** X13: every number in a list that [read] returns lies strictly
    between -4096 and 65536, since a slot has at most four characters and
    [int(_, 16)] takes a sign too. *)
Theorem read_numbers_bounded (fuel : nat) (D : string) (L n : Z)
        (w : world) (l : list value) :
  fst (read (S fuel) D L w) = Ret (VList l) ->
  In (VInt n) l ->
  -4096 < n < 65536.
Proof.
  intros Hread Hin.
  destruct (exchange_cases (read_cmd D L) w) as (o & w' & E & Ho & _).
  specialize (E fuel). destruct Ho as [-> | [d ->]].
  - rewrite (read_raise _ _ _ _ _ _ E) in Hread.
    injection Hread as <-. destruct Hin as [|[]]; discriminate.
  - destruct (String.eqb_spec (slice 18 22 d) "0000") as [Hst|Hst].
    + rewrite (read_decoded _ _ _ _ _ _ E Hst) in Hread.
      destruct (words d (range L)) as [l'|] eqn:El.
      * injection Hread as <-.
        destruct (words_In _ _ _ _ El Hin) as (i & _ & Hw).
        unfold word in Hw. destruct (slot d i =? "")%string; [discriminate|].
        destruct (int16 (slot d i)) as [m|] eqn:Em; [|discriminate].
        injection Hw as ->.
        apply (int16_bound (slot d i) n 3); [|exact Em].
        rewrite slot_take. apply length_take.
      * injection Hread as <-. destruct Hin as [|[]]; discriminate.
    + rewrite (read_status_bad _ _ _ _ _ _ E Hst) in Hread.
      injection Hread as <-. destruct Hin as [|[]]; discriminate.
Qed.

Lemma read_numbers_bounded_witness :
  fst (read 1 "D0100" 2 (plc [Text "D00000FF03FF00000C0000-FFFFFFF"]))
  = Ret (VList [VInt (-4095); VInt 65535])
  /\ -4096 < -4095 < 65536.
Proof.
  split; [reflexivity|].
  apply (read_numbers_bounded
           0 "D0100" 2 (-4095)
           (plc [Text "D00000FF03FF00000C0000-FFFFFFF"])
           [VInt (-4095); VInt 65535]);
    [reflexivity | now left].
Defined.
